(** * quick-registration: the registrant store, the dashboard view and the
    session guard, embedded from the TypeScript sources.

    - [src/types/index.ts]                    : [Registrant], [RegistrantFormData]
    - [services/registrationService]          : [getAllRegistrants] ... [deleteRegistrant]
    - [src/components/AdminDashboard.tsx]     : search filter and pagination
    - [src/contexts/AuthContext.tsx]          : [login], [logout], session reload

    Conventions of the embedding.
    - A JavaScript string is a [string]; one character stands for one code
      unit.  [===] on strings is [String.eqb].
    - [string | undefined] is [option string]; [undefined] is [None].
    - [localStorage] holds JSON text.  An item is modelled by the value the
      text denotes ([JSON.parse (JSON.stringify v) = v] for the records
      stored here: a field that is [undefined] is dropped by [stringify] and
      reads back as [undefined]).  An absent key is [None].
    - Reads of the environment ([crypto.randomUUID()], [Date.now()],
      [new Date().toISOString()]) are explicit arguments.
    - The [async] store functions contain no [await]: their bodies run to
      completion when called, so they are modelled as plain state passing. *)

From Stdlib Require Import ZArith String Ascii List Lia QArith Qround DecimalString.
From stdpp Require Import base list strings option.

Local Open Scope string_scope.
Local Open Scope list_scope.

(** ** JavaScript primitives used by the sources *)

(** Truthiness of a value of type [string | undefined]: [undefined] and the
    empty string are falsy. *)
Definition truthy (v : option string) : bool :=
  match v with
  | Some (String _ _) => true
  | _ => false
  end.

(** [a || b] on [string | undefined]. *)
Definition js_or (a b : option string) : option string :=
  if truthy a then a else b.

(** [`${n}`] for an integral Number below 1e21 in magnitude, which covers
    every value of [Date.now()]. *)
Definition numberToString (n : Z) : string :=
  NilZero.string_of_int (Z.to_int n).

(** [Array.prototype.findIndex]; [-1] is [None]. *)
Fixpoint findIndex {A : Type} (p : A -> bool) (l : list A) : option nat :=
  match l with
  | [] => None
  | x :: l' => if p x then Some 0%nat else S <$> findIndex p l'
  end.

(** [Array.prototype.slice(start, end)] with its treatment of negative and
    oversized bounds. *)
Definition relativeIndex (len i : Z) : Z :=
  if (i <? 0)%Z then Z.max (len + i) 0 else Z.min i len.

Definition slice {A : Type} (l : list A) (start end_ : Z) : list A :=
  let len := Z.of_nat (length l) in
  let k := relativeIndex len start in
  let final := relativeIndex len end_ in
  take (Z.to_nat (Z.max (final - k) 0)) (drop (Z.to_nat k) l).

(** [s.includes(t)]: [t] occurs in [s] at some position. *)
Fixpoint includes (s t : string) : bool :=
  String.prefix t s ||
  match s with
  | EmptyString => false
  | String _ s' => includes s' t
  end.

(** White space and line terminators stripped by [String.prototype.trim],
    among the code units a character of the model can hold:
    TAB, LF, VT, FF, CR, SP and NBSP. *)
Definition isWhiteSpace (c : ascii) : bool :=
  let n := N_of_ascii c in
  ((9 <=? n) && (n <=? 13) || (n =? 32) || (n =? 160))%N.

Fixpoint trimStart (s : string) : string :=
  match s with
  | EmptyString => EmptyString
  | String c s' => if isWhiteSpace c then trimStart s' else s
  end.

Fixpoint trimEnd (s : string) : string :=
  match s with
  | EmptyString => EmptyString
  | String c s' =>
      match trimEnd s' with
      | EmptyString => if isWhiteSpace c then EmptyString else String c EmptyString
      | t => String c t
      end
  end.

Definition trim (s : string) : string := trimEnd (trimStart s).

(** [Math.ceil(a / b)] for array lengths: the quotient of two integers
    below 2^32 is rounded by less than the distance of a non-integral
    quotient to the next integer, so the floating-point result is the exact
    ceiling of the rational quotient. *)
Definition Math_ceil_div (a b : Z) : Z :=
  Qceiling (inject_Z a / inject_Z b).

(** ** src/types/index.ts *)

Inductive Gender : Type := male | female | other.

Record Registrant : Type := mkRegistrant {
  id : string;
  fullName : string;
  email : string;
  phone : string;
  address : string;
  gender : Gender;
  dateOfBirth : string;
  photoPath : string;
  photoData : option string;
  createdAt : string
}.

(** The browser's [File]; the store never reads it. *)
Record File : Type := mkFile {
  file_name : string;
  file_type : string;
  file_size : Z
}.

(** [Omit<Registrant, 'id' | 'createdAt' | 'photoPath'> & { photo?: File }].
    The projections carry the prefix [data_], after the parameter name
    [data] of the store functions. *)
Record RegistrantFormData : Type := mkFormData {
  data_fullName : string;
  data_email : string;
  data_phone : string;
  data_address : string;
  data_gender : Gender;
  data_dateOfBirth : string;
  data_photoData : option string;
  data_photo : option File
}.

(** ** src/contexts/AuthContext.tsx: the [Admin] interface *)

Record Admin : Type := mkAdmin {
  username : string;
  isAuthenticated : bool
}.

(** ** localStorage *)

(** The two keys the application uses: ['registrants'] and ['admin']. *)
Record LocalStorage : Type := mkStorage {
  item_registrants : option (list Registrant);
  item_admin : option Admin
}.

Definition setItem_registrants (v : list Registrant) (ls : LocalStorage)
  : LocalStorage :=
  {| item_registrants := Some v; item_admin := item_admin ls |}.

Definition setItem_admin (v : Admin) (ls : LocalStorage) : LocalStorage :=
  {| item_registrants := item_registrants ls; item_admin := Some v |}.

Definition removeItem_admin (ls : LocalStorage) : LocalStorage :=
  {| item_registrants := item_registrants ls; item_admin := None |}.

(** The collection the storage denotes: an absent key is the empty
    sequence. *)
Definition collection (ls : LocalStorage) : list Registrant :=
  default [] (item_registrants ls).

(** ** services/registrationService *)

Definition initializeStorage (ls : LocalStorage) : LocalStorage :=
  match item_registrants ls with
  | None => setItem_registrants [] ls
  | Some _ => ls
  end.

Definition getAllRegistrants (ls : LocalStorage)
  : list Registrant * LocalStorage :=
  let ls1 := initializeStorage ls in
  (default [] (item_registrants ls1), ls1).

Definition getRegistrantById (i : string) (ls : LocalStorage)
  : option Registrant * LocalStorage :=
  let '(registrants, ls1) := getAllRegistrants ls in
  (List.find (fun registrant => String.eqb (id registrant) i) registrants, ls1).

(** What [addRegistrant] reads from its environment. *)
Record World : Type := mkWorld {
  randomUUID : string;
  Date_now : Z;
  Date_toISOString : string
}.

Definition photoLabel (now : Z) : string :=
  "photo_" ++ numberToString now ++ ".jpg".

Definition addRegistrant (w : World) (data : RegistrantFormData)
  (ls : LocalStorage) : Registrant * LocalStorage :=
  let '(registrants, ls1) := getAllRegistrants ls in
  let newRegistrant :=
    {| id := randomUUID w;
       fullName := data_fullName data;
       email := data_email data;
       phone := data_phone data;
       address := data_address data;
       gender := data_gender data;
       dateOfBirth := data_dateOfBirth data;
       photoData := data_photoData data;
       photoPath := if truthy (data_photoData data)
                    then photoLabel (Date_now w) else "";
       createdAt := Date_toISOString w |} in
  let registrants' := registrants ++ [newRegistrant] in
  (newRegistrant, setItem_registrants registrants' ls1).

(** The object literal of [updateRegistrant]: the spread of the old record
    followed by the overriding properties. *)
Definition updatedRegistrant (now : Z) (old : Registrant)
  (data : RegistrantFormData) : Registrant :=
  {| id := id old;
     createdAt := createdAt old;
     fullName := data_fullName data;
     email := data_email data;
     phone := data_phone data;
     address := data_address data;
     gender := data_gender data;
     dateOfBirth := data_dateOfBirth data;
     photoData := js_or (data_photoData data) (photoData old);
     photoPath := if truthy (data_photoData data)
                  then photoLabel now else photoPath old |}.

(** [registrants[index]] is read only after [findIndex] has returned
    [index], so the inner [None] branch is dead code of the model (see
    [findIndex_Some]). *)
Definition updateRegistrant (now : Z) (i : string)
  (data : RegistrantFormData) (ls : LocalStorage)
  : option Registrant * LocalStorage :=
  let '(registrants, ls1) := getAllRegistrants ls in
  match findIndex (fun registrant => String.eqb (id registrant) i) registrants with
  | None => (None, ls1)
  | Some index =>
      match registrants !! index with
      | None => (None, ls1)
      | Some old =>
          let updated := updatedRegistrant now old data in
          (Some updated, setItem_registrants (<[index := updated]> registrants) ls1)
      end
  end.

Definition deleteRegistrant (i : string) (ls : LocalStorage)
  : bool * LocalStorage :=
  let '(registrants, ls1) := getAllRegistrants ls in
  let filteredRegistrants :=
    List.filter (fun registrant => negb (String.eqb (id registrant) i)) registrants in
  if (length filteredRegistrants =? length registrants)%nat
  then (false, ls1)
  else (true, setItem_registrants filteredRegistrants ls1).

(** *** Sequences of store calls

    A caller of the store issues these calls one after the other; [run]
    threads the storage through them and collects, in order, the records
    that [addRegistrant] returned. *)

Inductive StoreCall : Type :=
  | CallAdd (w : World) (data : RegistrantFormData)
  | CallUpdate (now : Z) (i : string) (data : RegistrantFormData)
  | CallDelete (i : string)
  | CallGetById (i : string)
  | CallGetAll.

Definition step (c : StoreCall) (ls : LocalStorage)
  : list Registrant * LocalStorage :=
  match c with
  | CallAdd w data => let '(r, ls1) := addRegistrant w data ls in ([r], ls1)
  | CallUpdate now i data => ([], snd (updateRegistrant now i data ls))
  | CallDelete i => ([], snd (deleteRegistrant i ls))
  | CallGetById i => ([], snd (getRegistrantById i ls))
  | CallGetAll => ([], snd (getAllRegistrants ls))
  end.

Fixpoint run (cs : list StoreCall) (ls : LocalStorage)
  : list Registrant * LocalStorage :=
  match cs with
  | [] => ([], ls)
  | c :: cs' =>
      let '(created, ls1) := step c ls in
      let '(created', ls2) := run cs' ls1 in
      (created ++ created', ls2)
  end.

(** The identifiers [crypto.randomUUID()] hands out during a sequence of
    calls, in order. *)
Fixpoint drawnUUIDs (cs : list StoreCall) : list string :=
  match cs with
  | [] => []
  | CallAdd w _ :: cs' => randomUUID w :: drawnUUIDs cs'
  | _ :: cs' => drawnUUIDs cs'
  end.

Definition ids (l : list Registrant) : list string := id <$> l.

(** ** src/components/AdminDashboard.tsx *)

(** The callback of [registrants.filter] in the search effect.
    [toLowerCase] is [String.prototype.toLowerCase]. *)
Definition matchesSearch (toLowerCase : string -> string)
  (searchTerm : string) (registrant : Registrant) : bool :=
  let lowercasedSearch := toLowerCase searchTerm in
  includes (toLowerCase (fullName registrant)) lowercasedSearch
  || includes (toLowerCase (email registrant)) lowercasedSearch
  || includes (phone registrant) searchTerm.

(** The value the search effect stores in [filteredRegistrants]. *)
Definition filteredRegistrants (toLowerCase : string -> string)
  (registrants : list Registrant) (searchTerm : string) : list Registrant :=
  if String.eqb (trim searchTerm) ""
  then registrants
  else List.filter (matchesSearch toLowerCase searchTerm) registrants.

(** [useState(5)]; the setter is never bound. *)
Definition itemsPerPage : Z := 5.

Definition indexOfLastItem (currentPage perPage : Z) : Z :=
  currentPage * perPage.

Definition indexOfFirstItem (currentPage perPage : Z) : Z :=
  indexOfLastItem currentPage perPage - perPage.

Definition currentItems {A : Type} (filtered : list A)
  (currentPage perPage : Z) : list A :=
  slice filtered (indexOfFirstItem currentPage perPage)
                 (indexOfLastItem currentPage perPage).

Definition totalPages {A : Type} (filtered : list A) (perPage : Z) : Z :=
  Math_ceil_div (Z.of_nat (length filtered)) perPage.

(** [toLowerCase] on the code units a character of the model can hold:
    A-Z, and the capital letters of the Latin-1 supplement, move up by 32. *)
Definition lowerCodeUnit (c : ascii) : ascii :=
  let n := N_of_ascii c in
  if ((65 <=? n) && (n <=? 90) || (192 <=? n) && (n <=? 214)
      || (216 <=? n) && (n <=? 222))%N
  then ascii_of_N (n + 32) else c.

Fixpoint toLowerCase_latin1 (s : string) : string :=
  match s with
  | EmptyString => EmptyString
  | String c s' => String (lowerCodeUnit c) (toLowerCase_latin1 s')
  end.

(** *** The words of the specification, for comparison with the code *)

(** [t] is a substring of [s]. *)
Definition occursIn (t s : string) : Prop :=
  exists pre post : string, s = (pre ++ t ++ post)%string.

(** [t] is a substring of [s] when case is ignored. *)
Definition occursInIgnoringCase (toLowerCase : string -> string)
  (t s : string) : Prop :=
  occursIn (toLowerCase t) (toLowerCase s).

(** [s] is empty or consists of white space only. *)
Definition whitespaceOnly (s : string) : Prop :=
  Forall (fun c => isWhiteSpace c = true) (list_ascii_of_string s).

(** [t] is the ceiling of [n / k], for [k] positive. *)
Definition isCeiling (n k t : Z) : Prop :=
  ((t - 1) * k < n <= t * k)%Z.

(** ** src/contexts/AuthContext.tsx *)

(** The two [useState] cells of [AuthProvider]. *)
Record AuthState : Type := mkAuthState {
  state_admin : option Admin;
  state_isAuthenticated : bool
}.

Definition initialAuthState : AuthState :=
  {| state_admin := None; state_isAuthenticated := false |}.

(** The mount effect: adopt a session found in [localStorage]. *)
Definition mountEffect (st : AuthState) (ls : LocalStorage) : AuthState :=
  match item_admin ls with
  | Some parsedAdmin =>
      {| state_admin := Some parsedAdmin;
         state_isAuthenticated := isAuthenticated parsedAdmin |}
  | None => st
  end.

Definition login (username_ password : string) (st : AuthState)
  (ls : LocalStorage) : bool * AuthState * LocalStorage :=
  if String.eqb username_ "admin" && String.eqb password "admin123"
  then
    let adminUser := {| username := username_; isAuthenticated := true |} in
    (true,
     {| state_admin := Some adminUser; state_isAuthenticated := true |},
     setItem_admin adminUser ls)
  else (false, st, ls).

Definition logout (st : AuthState) (ls : LocalStorage)
  : AuthState * LocalStorage :=
  ({| state_admin := None; state_isAuthenticated := false |},
   removeItem_admin ls).

(** A restart of the application: [AuthProvider] is mounted afresh over
    the storage that survived. *)
Definition restart (ls : LocalStorage) : AuthState :=
  mountEffect initialAuthState ls.

(** ** Sample data *)

Definition emptyStorage : LocalStorage :=
  {| item_registrants := None; item_admin := None |}.

Definition sampleData (name mail tel : string) (photo : option string)
  : RegistrantFormData :=
  {| data_fullName := name; data_email := mail; data_phone := tel;
     data_address := "12 Main Street"; data_gender := female;
     data_dateOfBirth := "1990-04-01"; data_photoData := photo;
     data_photo := None |}.

Definition sampleWorld (uuid : string) (now : Z) : World :=
  {| randomUUID := uuid; Date_now := now;
     Date_toISOString := "2024-05-01T10:00:00.000Z" |}.

Definition aliceSmith : RegistrantFormData :=
  sampleData "Alice Smith" "asmith@example.org" "5550100001"
             (Some "data:image/jpeg;base64,AAAA").
Definition bobJones : RegistrantFormData :=
  sampleData "Bob Jones" "bjones@example.org" "5550100002" None.
Definition aliceBrown : RegistrantFormData :=
  sampleData "Alice Brown" "abrown@example.org" "5550100003" (Some "").

Definition threeCalls : list StoreCall :=
  [ CallAdd (sampleWorld "uuid-1" 1714557600000) aliceSmith;
    CallAdd (sampleWorld "uuid-2" 1714557600001) bobJones;
    CallAdd (sampleWorld "uuid-3" 1714557600002) aliceBrown ].

Definition threeRegistrants : LocalStorage :=
  snd (run threeCalls emptyStorage).

(** ** src/components/AdminDashboard.tsx: the component as a state machine

    The [useState] cells of [AdminDashboard] ([itemsPerPage] is the
    constant above).  A handler is followed by the effects React runs for
    the dependencies it changed; [JSON.parse] returns a new array on every
    load, so a reload always re-runs the search effect. *)

Record Dashboard : Type := mkDashboard {
  dash_registrants : list Registrant;
  dash_filteredRegistrants : list Registrant;
  dash_isLoading : bool;
  dash_searchTerm : string;
  dash_deleteConfirm : option string;
  dash_currentPage : Z
}.

Definition initialDashboard : Dashboard :=
  {| dash_registrants := []; dash_filteredRegistrants := [];
     dash_isLoading := true; dash_searchTerm := "";
     dash_deleteConfirm := None; dash_currentPage := 1 |}.

(** The search effect, with the [searchTerm] and [registrants] of the
    render that created it, writing into the pending state. *)
Definition searchEffectOf (toLowerCase : string -> string)
  (rendered pending : Dashboard) : Dashboard :=
  {| dash_registrants := dash_registrants pending;
     dash_filteredRegistrants :=
       filteredRegistrants toLowerCase (dash_registrants rendered)
                           (dash_searchTerm rendered);
     dash_isLoading := dash_isLoading pending;
     dash_searchTerm := dash_searchTerm pending;
     dash_deleteConfirm := dash_deleteConfirm pending;
     dash_currentPage := 1 |}.

Definition searchEffect (toLowerCase : string -> string) (st : Dashboard)
  : Dashboard :=
  searchEffectOf toLowerCase st st.

Definition loadRegistrants (st : Dashboard) (ls : LocalStorage)
  : Dashboard * LocalStorage :=
  let '(data, ls1) := getAllRegistrants ls in
  ({| dash_registrants := data;
      dash_filteredRegistrants := data;
      dash_isLoading := false;
      dash_searchTerm := dash_searchTerm st;
      dash_deleteConfirm := dash_deleteConfirm st;
      dash_currentPage := dash_currentPage st |}, ls1).

(** Mount: the load effect, then the search effect of the first render
    (which still sees the empty listing), then the search effect again
    because [registrants] has changed. *)
Definition mountDashboard (toLowerCase : string -> string)
  (ls : LocalStorage) : Dashboard * LocalStorage :=
  let '(st1, ls1) := loadRegistrants initialDashboard ls in
  (searchEffect toLowerCase (searchEffectOf toLowerCase initialDashboard st1),
   ls1).

Definition setDeleteConfirm (v : option string) (st : Dashboard) : Dashboard :=
  {| dash_registrants := dash_registrants st;
     dash_filteredRegistrants := dash_filteredRegistrants st;
     dash_isLoading := dash_isLoading st;
     dash_searchTerm := dash_searchTerm st;
     dash_deleteConfirm := v;
     dash_currentPage := dash_currentPage st |}.

Definition setSearchTerm (v : string) (st : Dashboard) : Dashboard :=
  {| dash_registrants := dash_registrants st;
     dash_filteredRegistrants := dash_filteredRegistrants st;
     dash_isLoading := dash_isLoading st;
     dash_searchTerm := v;
     dash_deleteConfirm := dash_deleteConfirm st;
     dash_currentPage := dash_currentPage st |}.

Definition paginate (pageNumber : Z) (st : Dashboard) : Dashboard :=
  {| dash_registrants := dash_registrants st;
     dash_filteredRegistrants := dash_filteredRegistrants st;
     dash_isLoading := dash_isLoading st;
     dash_searchTerm := dash_searchTerm st;
     dash_deleteConfirm := dash_deleteConfirm st;
     dash_currentPage := pageNumber |}.

Definition isConfirming (i : string) (st : Dashboard) : bool :=
  match dash_deleteConfirm st with
  | Some c => String.eqb c i
  | None => false
  end.

Definition handleDelete (toLowerCase : string -> string) (i : string)
  (st : Dashboard) (ls : LocalStorage) : Dashboard * LocalStorage :=
  if isConfirming i st then
    let '(_, ls1) := deleteRegistrant i ls in
    let '(st1, ls2) := loadRegistrants st ls1 in
    (searchEffect toLowerCase (setDeleteConfirm None st1), ls2)
  else (setDeleteConfirm (Some i) st, ls).

Definition cancelDelete (st : Dashboard) : Dashboard :=
  setDeleteConfirm None st.

(** What the dashboard renders. *)
Definition dash_currentItems (st : Dashboard) : list Registrant :=
  currentItems (dash_filteredRegistrants st) (dash_currentPage st) itemsPerPage.

Definition dash_totalPages (st : Dashboard) : Z :=
  totalPages (dash_filteredRegistrants st) itemsPerPage.

Definition isEmptyList {A : Type} (l : list A) : bool :=
  match l with [] => true | _ => false end.

(** The table replaces the spinner and the two "nothing found" notices. *)
Definition tableShown (st : Dashboard) : bool :=
  negb (dash_isLoading st) && negb (isEmptyList (dash_registrants st))
  && negb (isEmptyList (dash_filteredRegistrants st)).

(** [totalPages > 1 && ...], inside the table branch. *)
Definition paginationShown (st : Dashboard) : bool :=
  tableShown st && (1 <? dash_totalPages st)%Z.

(** A row, with its delete button, exists for each of [currentItems]. *)
Definition rowShown (i : string) (st : Dashboard) : bool :=
  tableShown st
  && existsb (fun registrant => String.eqb (id registrant) i) (dash_currentItems st).

(** The "Showing a to b of n results" line. *)
Definition showingFrom (st : Dashboard) : Z :=
  indexOfFirstItem (dash_currentPage st) itemsPerPage + 1.

Definition showingTo (st : Dashboard) : Z :=
  Z.min (indexOfLastItem (dash_currentPage st) itemsPerPage)
        (Z.of_nat (length (dash_filteredRegistrants st))).

(** What the user can do on the dashboard.  A click on a control that is
    not rendered, or is [disabled], does nothing. *)
Inductive DashboardEvent : Type :=
  | TypeSearch (v : string)
  | ClickDelete (i : string)
  | ClickCancel (i : string)
  | ClickPrevious
  | ClickNext
  | ClickPage (index : nat).

Definition dashStep (toLowerCase : string -> string) (ev : DashboardEvent)
  (st : Dashboard) (ls : LocalStorage) : Dashboard * LocalStorage :=
  match ev with
  | TypeSearch v =>
      if String.eqb v (dash_searchTerm st) then (st, ls)
      else (searchEffect toLowerCase (setSearchTerm v st), ls)
  | ClickDelete i =>
      if rowShown i st then handleDelete toLowerCase i st ls else (st, ls)
  | ClickCancel i =>
      if rowShown i st && isConfirming i st then (cancelDelete st, ls)
      else (st, ls)
  | ClickPrevious =>
      if paginationShown st && negb (dash_currentPage st =? 1)%Z
      then (paginate (Z.max 1 (dash_currentPage st - 1)) st, ls)
      else (st, ls)
  | ClickNext =>
      if paginationShown st && negb (dash_currentPage st =? dash_totalPages st)%Z
      then (paginate (Z.min (dash_totalPages st) (dash_currentPage st + 1)) st, ls)
      else (st, ls)
  | ClickPage index =>
      if paginationShown st && (Z.of_nat index <? dash_totalPages st)%Z
      then (paginate (Z.of_nat index + 1) st, ls)
      else (st, ls)
  end.

Fixpoint dashRun (toLowerCase : string -> string) (evs : list DashboardEvent)
  (st : Dashboard) (ls : LocalStorage) : Dashboard * LocalStorage :=
  match evs with
  | [] => (st, ls)
  | ev :: evs' =>
      let '(st1, ls1) := dashStep toLowerCase ev st ls in
      dashRun toLowerCase evs' st1 ls1
  end.

(** The page numbers the pagination bar offers: [1 .. totalPages]. *)
Definition pageNumbers (pages : Z) : list Z :=
  map (fun index => Z.of_nat index + 1)%Z (seq 0 (Z.to_nat pages)).

(** The dashboard shows what is stored: the listing is the stored
    collection, the filtered view is the search applied to the listing, the
    spinner is off and the page index lies in [1 .. max(1, totalPages)]. *)
Definition dashboardConsistent (toLowerCase : string -> string)
  (st : Dashboard) (ls : LocalStorage) : Prop :=
  dash_registrants st = collection ls /\
  dash_filteredRegistrants st
    = filteredRegistrants toLowerCase (dash_registrants st) (dash_searchTerm st) /\
  dash_isLoading st = false /\
  (1 <= dash_currentPage st <= Z.max 1 (dash_totalPages st))%Z.

(** ** src/contexts/AuthContext.tsx: the provider as a state machine *)

Inductive AuthEvent : Type :=
  | EvLogin (username_ password : string)
  | EvLogout
  | EvRestart.

Definition authStep (ev : AuthEvent) (st : AuthState) (ls : LocalStorage)
  : AuthState * LocalStorage :=
  match ev with
  | EvLogin u p => let '(_, st1, ls1) := login u p st ls in (st1, ls1)
  | EvLogout => logout st ls
  | EvRestart => (restart ls, ls)
  end.

Fixpoint authRun (evs : list AuthEvent) (st : AuthState) (ls : LocalStorage)
  : AuthState * LocalStorage :=
  match evs with
  | [] => (st, ls)
  | ev :: evs' => let '(st1, ls1) := authStep ev st ls in authRun evs' st1 ls1
  end.

(** ** components/RegistrationForm and src/components/EditRegistrant.tsx *)

(** [z.infer<typeof registrationSchema>], the same shape as
    [EditFormValues]: the six validated fields. *)
Record FormValues : Type := mkFormValues {
  values_fullName : string;
  values_email : string;
  values_phone : string;
  values_address : string;
  values_gender : Gender;
  values_dateOfBirth : string
}.

(** [{ ...data, photoData }] *)
Definition registrantData (data : FormValues) (photoData_ : string)
  : RegistrantFormData :=
  {| data_fullName := values_fullName data;
     data_email := values_email data;
     data_phone := values_phone data;
     data_address := values_address data;
     data_gender := values_gender data;
     data_dateOfBirth := values_dateOfBirth data;
     data_photoData := Some photoData_;
     data_photo := None |}.

Record RegistrationFormState : Type := mkRegistrationFormState {
  reg_photoData : string;
  reg_isSubmitting : bool;
  reg_submitSuccess : bool
}.

(** *** A store call that throws

    [localStorage] and [crypto] can throw (quota exceeded, storage or
    [crypto.randomUUID] unavailable); an [async] store function then
    rejects.  The store functions above describe the calls that run to
    completion.  A call that throws has written nothing of its own: the
    storage is as it was, or, when the throw comes after
    [initializeStorage], an absent ['registrants'] key has been created.
    Whether and where a call throws is decided by the environment, like
    the clock and the drawn UUID; [attempt] gives a store call either
    outcome, for the handlers that [catch] the rejection. *)
Inductive StoreFault : Type :=
  | ThrowsBeforeInitialize
  | ThrowsAfterInitialize.

Definition storageAfterFault (f : StoreFault) (ls : LocalStorage)
  : LocalStorage :=
  match f with
  | ThrowsBeforeInitialize => ls
  | ThrowsAfterInitialize => initializeStorage ls
  end.

(** [None] as the first component is the rejection. *)
Definition attempt {A : Type} (fault : option StoreFault)
  (call : LocalStorage -> A * LocalStorage) (ls : LocalStorage)
  : option A * LocalStorage :=
  match fault with
  | None => let '(a, ls1) := call ls in (Some a, ls1)
  | Some f => (None, storageAfterFault f ls)
  end.

(** [onSubmit] of [RegistrationForm], up to the end of its [finally]; the
    first component is the text of the [alert], if one is raised.  The
    three outcomes are the refusal for want of a photo, the [try] body run
    to its end, and the [catch] branch. *)
Definition registration_onSubmit (w : World) (fault : option StoreFault)
  (data : FormValues) (st : RegistrationFormState) (ls : LocalStorage)
  : option string * RegistrationFormState * LocalStorage :=
  if negb (truthy (Some (reg_photoData st))) then
    (Some "Please capture or upload a photo", st, ls)
  else
    match attempt fault
            (addRegistrant w (registrantData data (reg_photoData st))) ls with
    | (Some _, ls1) =>
        (None,
         {| reg_photoData := ""; reg_isSubmitting := false;
            reg_submitSuccess := true |},
         ls1)
    | (None, ls1) =>
        (Some "An error occurred while submitting the form. Please try again.",
         {| reg_photoData := reg_photoData st; reg_isSubmitting := false;
            reg_submitSuccess := reg_submitSuccess st |},
         ls1)
    end.

Record EditState : Type := mkEditState {
  edit_photoData : string;
  edit_isSubmitting : bool;
  edit_isLoading : bool;
  edit_error : option string;
  edit_values : option FormValues;
  edit_navigated : option string
}.

Definition initialEditState : EditState :=
  {| edit_photoData := ""; edit_isSubmitting := false; edit_isLoading := true;
     edit_error := None; edit_values := None; edit_navigated := None |}.

(** The six [setValue] calls of the load effect. *)
Definition valuesOf (registrant : Registrant) : FormValues :=
  {| values_fullName := fullName registrant;
     values_email := email registrant;
     values_phone := phone registrant;
     values_address := address registrant;
     values_gender := gender registrant;
     values_dateOfBirth := dateOfBirth registrant |}.

(** The load effect of [EditRegistrant]; [i] is the route parameter. *)
Definition edit_loadEffect (i : option string) (st : EditState)
  (ls : LocalStorage) : EditState * LocalStorage :=
  if negb (truthy i) then
    ({| edit_photoData := edit_photoData st;
        edit_isSubmitting := edit_isSubmitting st;
        edit_isLoading := edit_isLoading st;
        edit_error := edit_error st;
        edit_values := edit_values st;
        edit_navigated := Some "/admin/dashboard" |}, ls)
  else
    let '(registrant, ls1) := getRegistrantById (default "" i) ls in
    match registrant with
    | None =>
        ({| edit_photoData := edit_photoData st;
            edit_isSubmitting := edit_isSubmitting st;
            edit_isLoading := false;
            edit_error := Some "Registrant not found";
            edit_values := edit_values st;
            edit_navigated := edit_navigated st |}, ls1)
    | Some r =>
        ({| edit_photoData := if truthy (photoData r)
                              then default "" (photoData r)
                              else edit_photoData st;
            edit_isSubmitting := edit_isSubmitting st;
            edit_isLoading := false;
            edit_error := edit_error st;
            edit_values := Some (valuesOf r);
            edit_navigated := edit_navigated st |}, ls1)
    end.

(** [onSubmit] of [EditRegistrant], up to the end of its [finally]: the
    early return, the two branches on [result], and the [catch] branch. *)
Definition edit_onSubmit (now : Z) (fault : option StoreFault)
  (i : option string) (data : FormValues)
  (st : EditState) (ls : LocalStorage) : EditState * LocalStorage :=
  if negb (truthy i) then (st, ls)
  else
    match attempt fault
            (updateRegistrant now (default "" i)
                              (registrantData data (edit_photoData st))) ls with
    | (Some (Some _), ls1) =>
        ({| edit_photoData := edit_photoData st;
            edit_isSubmitting := false;
            edit_isLoading := edit_isLoading st;
            edit_error := edit_error st;
            edit_values := edit_values st;
            edit_navigated := Some "/admin/dashboard" |}, ls1)
    | (Some None, ls1) =>
        ({| edit_photoData := edit_photoData st;
            edit_isSubmitting := false;
            edit_isLoading := edit_isLoading st;
            edit_error := Some "Failed to update registrant";
            edit_values := edit_values st;
            edit_navigated := edit_navigated st |}, ls1)
    | (None, ls1) =>
        ({| edit_photoData := edit_photoData st;
            edit_isSubmitting := false;
            edit_isLoading := edit_isLoading st;
            edit_error := Some "An error occurred while updating the registrant";
            edit_values := edit_values st;
            edit_navigated := edit_navigated st |}, ls1)
    end.

(** ** src/components/FileUpload.tsx *)

Record FileUploadState : Type := mkFileUploadState {
  upload_preview : option string;
  upload_error : option string
}.

(** [file.type.match('image.*')]: the string becomes the unanchored regular
    expression [/image.*/], which matches exactly the strings that contain
    [image]. *)
Definition matchesImage (type_ : string) : bool := includes type_ "image".

Definition maxFileSize : Z := 5 * 1024 * 1024.

(** [handleFileChange]; the second component is the file handed to
    [onFileSelect], if the callback is called. *)
Definition handleFileChange (file : option File) (st : FileUploadState)
  : FileUploadState * option File :=
  match file with
  | None => (st, None)
  | Some f =>
      if negb (matchesImage (file_type f)) then
        ({| upload_preview := upload_preview st;
            upload_error := Some "Please select an image file (JPEG, PNG, etc.)" |},
         None)
      else if (maxFileSize <? file_size f)%Z then
        ({| upload_preview := upload_preview st;
            upload_error := Some "File is too large. Maximum size is 5MB." |},
         None)
      else
        ({| upload_preview := upload_preview st; upload_error := None |},
         Some f)
  end.

(** The (record, creation time) pair that identifies a registrant. *)
Definition identity (r : Registrant) : string * string := (id r, createdAt r).

(** * Proofs *)

(** ** Array primitives *)

Lemma findIndex_Some {A : Type} (p : A -> bool) (l : list A) (i : nat) :
  findIndex p l = Some i ->
  exists x, l !! i = Some x /\ p x = true /\
            forall j y, (j < i)%nat -> l !! j = Some y -> p y = false.
Proof.
  revert i; induction l as [|a l IH]; intros i; simpl; [discriminate|].
  destruct (p a) eqn:Hpa.
  - intros [= <-]. exists a. repeat split; auto. intros j y Hj; lia.
  - destruct (findIndex p l) as [k|] eqn:Hk; simpl; [|discriminate].
    intros [= <-]. destruct (IH k eq_refl) as (x & Hx & Hpx & Hmin).
    exists x. repeat split; auto.
    intros [|j] y Hj Hy; simpl in Hy.
    + congruence.
    + apply (Hmin j); [lia | exact Hy].
Qed.

Lemma findIndex_None {A : Type} (p : A -> bool) (l : list A) :
  findIndex p l = None <-> (forall x, x ∈ l -> p x = false).
Proof.
  induction l as [|a l IH]; simpl.
  - split; [intros _ x Hx; inversion Hx | reflexivity].
  - destruct (p a) eqn:Hpa.
    + split; [discriminate|]. intros H.
      specialize (H a (list_elem_of_here _ _)). congruence.
    + destruct (findIndex p l) eqn:Hk; simpl.
      * split; [discriminate|]. intros H.
        assert (Some n = None) as Habs; [|discriminate].
        apply IH. intros x Hx. apply H. by apply list_elem_of_further.
      * split; [|reflexivity]. intros _ x Hx.
        apply elem_of_cons in Hx as [->|Hx]; [done|].
        by apply IH.
Qed.

(** [find] returns the element at the index [findIndex] returns. *)
Lemma find_findIndex {A : Type} (p : A -> bool) (l : list A) :
  List.find p l = findIndex p l ≫= (fun i => l !! i).
Proof.
  induction l as [|a l IH]; simpl; [reflexivity|].
  destruct (p a); [reflexivity|]. rewrite IH.
  by destruct (findIndex p l).
Qed.

Lemma findIndex_insert {A : Type} (p : A -> bool) (l : list A) (i : nat) (y : A) :
  findIndex p l = Some i -> p y = true -> findIndex p (<[i := y]> l) = Some i.
Proof.
  revert i; induction l as [|a l IH]; intros i; simpl; [discriminate|].
  destruct (p a) eqn:Hpa.
  - intros [= <-] Hy. simpl. by rewrite Hy.
  - destruct (findIndex p l) as [k|] eqn:Hk; simpl; [|discriminate].
    intros [= <-] Hy. simpl. rewrite Hpa. by rewrite (IH k eq_refl Hy).
Qed.

Lemma no_match_iff (i : string) (l : list Registrant) :
  (forall x, x ∈ l -> String.eqb (id x) i = false) <-> i ∉ ids l.
Proof.
  unfold ids. split.
  - intros H Hin. apply list_elem_of_fmap in Hin as (x & -> & Hx).
    specialize (H x Hx). by apply String.eqb_neq in H.
  - intros H x Hx. apply String.eqb_neq. intros <-.
    apply H. apply list_elem_of_fmap. eauto.
Qed.

(** ** The storage *)

Lemma collection_initializeStorage (ls : LocalStorage) :
  collection (initializeStorage ls) = collection ls.
Proof. by destruct ls as [[l|] a]. Qed.

Lemma initializeStorage_initialized (ls : LocalStorage) :
  is_Some (item_registrants ls) -> initializeStorage ls = ls.
Proof. destruct ls as [[l|] a]; [done|]. by intros [? [=]]. Qed.

Lemma item_admin_initializeStorage (ls : LocalStorage) :
  item_admin (initializeStorage ls) = item_admin ls.
Proof. by destruct ls as [[l|] a]. Qed.

Lemma getAllRegistrants_eq (ls : LocalStorage) :
  getAllRegistrants ls = (collection ls, initializeStorage ls).
Proof. by destruct ls as [[l|] a]. Qed.

Lemma collection_setItem (v : list Registrant) (ls : LocalStorage) :
  collection (setItem_registrants v ls) = v.
Proof. reflexivity. Qed.

Lemma getRegistrantById_eq (i : string) (ls : LocalStorage) :
  getRegistrantById i ls =
  (List.find (fun r => String.eqb (id r) i) (collection ls), initializeStorage ls).
Proof. unfold getRegistrantById. by rewrite getAllRegistrants_eq. Qed.

(** The inner [None] branch of [updateRegistrant] is never taken. *)
Lemma updateRegistrant_eq (now : Z) (i : string) (data : RegistrantFormData)
  (ls : LocalStorage) :
  updateRegistrant now i data ls =
  match findIndex (fun r => String.eqb (id r) i) (collection ls) with
  | None => (None, initializeStorage ls)
  | Some index =>
      match collection ls !! index with
      | None => (None, initializeStorage ls)
      | Some old =>
          (Some (updatedRegistrant now old data),
           setItem_registrants
             (<[index := updatedRegistrant now old data]> (collection ls))
             (initializeStorage ls))
      end
  end.
Proof. unfold updateRegistrant. by rewrite getAllRegistrants_eq. Qed.

Lemma updateRegistrant_found (now : Z) (i : string) (data : RegistrantFormData)
  (ls : LocalStorage) (index : nat) :
  findIndex (fun r => String.eqb (id r) i) (collection ls) = Some index ->
  exists old, collection ls !! index = Some old /\ id old = i /\
    updateRegistrant now i data ls =
      (Some (updatedRegistrant now old data),
       setItem_registrants
         (<[index := updatedRegistrant now old data]> (collection ls))
         (initializeStorage ls)).
Proof.
  intros Hidx. destruct (findIndex_Some _ _ _ Hidx) as (old & Hold & Hid & _).
  exists old. split; [done|]. split; [by apply String.eqb_eq|].
  by rewrite updateRegistrant_eq, Hidx, Hold.
Qed.

Lemma deleteRegistrant_eq (i : string) (ls : LocalStorage) :
  deleteRegistrant i ls =
  let kept := List.filter (fun r => negb (String.eqb (id r) i)) (collection ls) in
  if (length kept =? length (collection ls))%nat
  then (false, initializeStorage ls)
  else (true, setItem_registrants kept (initializeStorage ls)).
Proof. unfold deleteRegistrant. by rewrite getAllRegistrants_eq. Qed.

Lemma addRegistrant_collection (w : World) (data : RegistrantFormData)
  (ls : LocalStorage) :
  collection (snd (addRegistrant w data ls)) =
  collection ls ++ [fst (addRegistrant w data ls)].
Proof. unfold addRegistrant. by rewrite getAllRegistrants_eq. Qed.

Lemma addRegistrant_id (w : World) (data : RegistrantFormData)
  (ls : LocalStorage) :
  id (fst (addRegistrant w data ls)) = randomUUID w.
Proof. unfold addRegistrant. by rewrite getAllRegistrants_eq. Qed.

(** A filter that drops nothing, by length, is the identity. *)
Lemma filter_length_eq {A : Type} (p : A -> bool) (l : list A) :
  length (List.filter p l) = length l <-> (forall x, x ∈ l -> p x = true).
Proof.
  induction l as [|a l IH]; simpl.
  - split; [intros _ x Hx; inversion Hx | reflexivity].
  - pose proof (List.filter_length_le p l) as Hle.
    destruct (p a) eqn:Hpa; simpl.
    + split.
      * intros Hlen x Hx. apply elem_of_cons in Hx as [->|Hx]; [done|].
        apply IH; [lia | done].
      * intros H. f_equal. apply IH. intros x Hx. apply H.
        by apply list_elem_of_further.
    + split; [lia|]. intros H.
      specialize (H a (list_elem_of_here _ _)). congruence.
Qed.

Lemma filter_all {A : Type} (p : A -> bool) (l : list A) :
  (forall x, x ∈ l -> p x = true) -> List.filter p l = l.
Proof.
  induction l as [|a l IH]; intros H; simpl; [reflexivity|].
  rewrite (H a (list_elem_of_here _ _)). f_equal. apply IH.
  intros x Hx. apply H. by apply list_elem_of_further.
Qed.

Lemma find_app_fresh {A : Type} (p : A -> bool) (l : list A) (x : A) :
  (forall y, y ∈ l -> p y = false) -> p x = true ->
  List.find p (l ++ [x]) = Some x.
Proof.
  intros Hl Hx. induction l as [|a l IH]; simpl.
  - by rewrite Hx.
  - rewrite (Hl a (list_elem_of_here _ _)). apply IH.
    intros y Hy. apply Hl. by apply list_elem_of_further.
Qed.

Lemma photoLabel_nonempty (now : Z) : photoLabel now <> "".
Proof. unfold photoLabel. simpl. discriminate. Qed.

(** ** The registrant store *)

(** C1. Update of an existing registrant [r], found under [i]: the call
    returns a record [r'] and stores it (a later [getRegistrantById i]
    reads [r'] back); the six form fields of [r'] are the supplied ones,
    [id] and [createdAt] are those of [r].  When the supplied photo is
    empty or absent, [photoData] and [photoPath] of [r'] are both those of
    [r]; when a photo is supplied, both are new.  No other combination
    occurs, so an old photo is never paired with a new path or the
    reverse. *)
Theorem update_without_photo_keeps_photo_pair
  (now : Z) (i : string) (data : RegistrantFormData) (ls : LocalStorage)
  (r : Registrant) :
  fst (getRegistrantById i ls) = Some r ->
  exists (r' : Registrant) (ls' : LocalStorage),
    updateRegistrant now i data ls = (Some r', ls') /\
    fst (getRegistrantById i ls') = Some r' /\
    (fullName r' = data_fullName data /\ email r' = data_email data /\
     phone r' = data_phone data /\ address r' = data_address data /\
     gender r' = data_gender data /\ dateOfBirth r' = data_dateOfBirth data) /\
    (id r' = id r /\ createdAt r' = createdAt r) /\
    (truthy (data_photoData data) = false ->
       photoData r' = photoData r /\ photoPath r' = photoPath r) /\
    (truthy (data_photoData data) = true ->
       photoData r' = data_photoData data /\ photoPath r' = photoLabel now).
Proof.
  intros Hr. rewrite getRegistrantById_eq, find_findIndex in Hr. simpl in Hr.
  destruct (findIndex _ (collection ls)) as [index|] eqn:Hidx; [|discriminate].
  simpl in Hr.
  destruct (updateRegistrant_found now i data ls index Hidx)
    as (old & Hold & Hid & Hupd).
  assert (old = r) as -> by congruence.
  eexists _, _. split; [exact Hupd|].
  split.
  - rewrite getRegistrantById_eq, collection_setItem, find_findIndex. simpl.
    erewrite findIndex_insert; [| exact Hidx | by apply String.eqb_eq].
    simpl. apply list_lookup_insert_eq. by eapply lookup_lt_Some.
  - unfold js_or. simpl.
    split; [repeat split|]. split; [split; reflexivity|].
    split; intros H; simpl; unfold js_or; rewrite H; split; reflexivity.
Qed.

Lemma update_without_photo_keeps_photo_pair_witness :
  fst (getRegistrantById "uuid-1" threeRegistrants)
    = Some (fst (addRegistrant (sampleWorld "uuid-1" 1714557600000)
                               aliceSmith emptyStorage)) /\
  exists (r' : Registrant) (ls' : LocalStorage),
    updateRegistrant 1714557900000 "uuid-1" bobJones threeRegistrants
      = (Some r', ls') /\
    fst (getRegistrantById "uuid-1" ls') = Some r' /\
    (fullName r' = "Bob Jones" /\ email r' = "bjones@example.org" /\
     phone r' = "5550100002" /\ address r' = "12 Main Street" /\
     gender r' = female /\ dateOfBirth r' = "1990-04-01") /\
    (id r' = "uuid-1" /\ createdAt r' = "2024-05-01T10:00:00.000Z") /\
    (truthy None = false ->
       photoData r' = Some "data:image/jpeg;base64,AAAA" /\
       photoPath r' = "photo_1714557600000.jpg") /\
    (truthy None = true ->
       photoData r' = None /\ photoPath r' = photoLabel 1714557900000).
Proof.
  split; [reflexivity|].
  exact (update_without_photo_keeps_photo_pair 1714557900000 "uuid-1"
           bobJones threeRegistrants _ eq_refl).
Defined.

(** C2. Update under an [i] that no record carries: the call returns
    [null], and the storage still denotes the same collection, with the
    session item as it was.  Storage whose ['registrants'] key exists is
    left exactly as it was; an absent key is created holding the empty
    collection, by the read that precedes the lookup. *)
Theorem update_unknown_id_changes_nothing
  (now : Z) (i : string) (data : RegistrantFormData) (ls : LocalStorage) :
  i ∉ ids (collection ls) ->
  fst (updateRegistrant now i data ls) = None /\
  collection (snd (updateRegistrant now i data ls)) = collection ls /\
  item_admin (snd (updateRegistrant now i data ls)) = item_admin ls /\
  (is_Some (item_registrants ls) -> snd (updateRegistrant now i data ls) = ls).
Proof.
  intros Hnot.
  pose proof (proj2 (findIndex_None _ _) (proj2 (no_match_iff i _) Hnot)) as Hidx.
  rewrite updateRegistrant_eq, Hidx. simpl.
  split; [reflexivity|].
  split; [apply collection_initializeStorage|].
  split; [apply item_admin_initializeStorage|].
  apply initializeStorage_initialized.
Qed.

Lemma update_unknown_id_changes_nothing_witness :
  ("uuid-9" ∉ ids (collection threeRegistrants)) /\
  fst (updateRegistrant 7 "uuid-9" bobJones threeRegistrants) = None /\
  collection (snd (updateRegistrant 7 "uuid-9" bobJones threeRegistrants))
    = collection threeRegistrants /\
  item_admin (snd (updateRegistrant 7 "uuid-9" bobJones threeRegistrants))
    = item_admin threeRegistrants /\
  (is_Some (item_registrants threeRegistrants) ->
   snd (updateRegistrant 7 "uuid-9" bobJones threeRegistrants) = threeRegistrants).
Proof.
  assert ("uuid-9" ∉ ids (collection threeRegistrants)) as Hnot.
  { apply no_match_iff. intros x Hx. vm_compute in Hx.
    repeat (apply elem_of_cons in Hx as [->|Hx]; [reflexivity|]).
    inversion Hx. }
  split; [exact Hnot|].
  exact (update_unknown_id_changes_nothing 7 "uuid-9" bobJones threeRegistrants Hnot).
Defined.

Lemma filter_keeps_iff (i : string) (l : list Registrant) :
  (forall x, x ∈ l -> negb (String.eqb (id x) i) = true) <-> i ∉ ids l.
Proof.
  rewrite <- no_match_iff. split; intros H x Hx; specialize (H x Hx).
  - by apply negb_true_iff.
  - by apply negb_true_iff.
Qed.

Lemma elem_of_kept (i : string) (l : list Registrant) (r : Registrant) :
  r ∈ List.filter (fun x => negb (String.eqb (id x) i)) l <-> r ∈ l /\ id r <> i.
Proof.
  rewrite !list_elem_of_In, List.filter_In, negb_true_iff.
  by rewrite String.eqb_neq.
Qed.

(** C3. [deleteRegistrant i] returns [true] exactly when some record
    carries [i]; the stored collection then holds the records of the old
    one that do not carry [i], so it is strictly shorter and no record
    carries [i] any more.  When no record carries [i] the call returns
    [false] and the storage denotes the same collection; storage whose
    ['registrants'] key exists is left exactly as it was. *)
Theorem delete_true_iff_present (i : string) (ls : LocalStorage) :
  (fst (deleteRegistrant i ls) = true <-> i ∈ ids (collection ls)) /\
  (fst (deleteRegistrant i ls) = true ->
     (i ∉ ids (collection (snd (deleteRegistrant i ls)))) /\
     (length (collection (snd (deleteRegistrant i ls)))
        < length (collection ls))%nat /\
     (forall r, r ∈ collection (snd (deleteRegistrant i ls))
                <-> r ∈ collection ls /\ id r <> i)) /\
  (i ∉ ids (collection ls) ->
     fst (deleteRegistrant i ls) = false /\
     collection (snd (deleteRegistrant i ls)) = collection ls /\
     length (collection (snd (deleteRegistrant i ls)))
       = length (collection ls) /\
     item_admin (snd (deleteRegistrant i ls)) = item_admin ls /\
     (is_Some (item_registrants ls) -> snd (deleteRegistrant i ls) = ls)).
Proof.
  rewrite deleteRegistrant_eq. cbv zeta.
  set (kept := List.filter _ (collection ls)).
  pose proof (filter_length_eq (fun x => negb (String.eqb (id x) i))
                (collection ls)) as Hlen. fold kept in Hlen.
  rewrite filter_keeps_iff in Hlen.
  pose proof (List.filter_length_le (fun x => negb (String.eqb (id x) i))
                (collection ls)) as Hle. fold kept in Hle.
  destruct (Nat.eqb_spec (length kept) (length (collection ls))) as [Heq|Hne];
    simpl.
  - pose proof (proj1 Hlen Heq) as Hnot.
    split; [split; [discriminate | intros Hin; by destruct Hnot]|].
    split; [discriminate|]. intros _.
    rewrite collection_initializeStorage, item_admin_initializeStorage.
    repeat split; auto. apply initializeStorage_initialized.
  - assert (i ∈ ids (collection ls)) as Hin.
    { destruct (decide (i ∈ ids (collection ls))) as [|Hn]; [done|].
      destruct Hne. by apply Hlen. }
    split; [split; auto|].
    split; [|intros Hn; by destruct Hn].
    intros _. split; [|split].
    + unfold kept. intros Hi. apply list_elem_of_fmap in Hi as (x & -> & Hx).
      apply elem_of_kept in Hx as [_ Hx]. by destruct Hx.
    + change (length kept < length (collection ls))%nat. lia.
    + intros r. apply elem_of_kept.
Qed.

(** C4. [addRegistrant] followed at once by [getRegistrantById] of the
    returned [id] reads back the returned record, field for field, without
    touching the storage; its [id] is the drawn UUID, its [createdAt] the
    time stamp read at creation, and the form fields are the supplied
    ones.  The drawn UUID is taken to be fresh, as the identifier
    generator is relied on to provide; the store does not check it. *)
Theorem create_then_getById_roundtrip
  (w : World) (data : RegistrantFormData) (ls : LocalStorage) :
  randomUUID w ∉ ids (collection ls) ->
  getRegistrantById (id (fst (addRegistrant w data ls)))
                    (snd (addRegistrant w data ls))
    = (Some (fst (addRegistrant w data ls)), snd (addRegistrant w data ls)) /\
  (id (fst (addRegistrant w data ls)) = randomUUID w /\
   createdAt (fst (addRegistrant w data ls)) = Date_toISOString w) /\
  (fullName (fst (addRegistrant w data ls)) = data_fullName data /\
   email (fst (addRegistrant w data ls)) = data_email data /\
   phone (fst (addRegistrant w data ls)) = data_phone data /\
   address (fst (addRegistrant w data ls)) = data_address data /\
   gender (fst (addRegistrant w data ls)) = data_gender data /\
   dateOfBirth (fst (addRegistrant w data ls)) = data_dateOfBirth data /\
   photoData (fst (addRegistrant w data ls)) = data_photoData data).
Proof.
  intros Hfresh. split; [|unfold addRegistrant; rewrite getAllRegistrants_eq;
                          simpl; repeat split].
  rewrite getRegistrantById_eq, addRegistrant_collection, addRegistrant_id.
  f_equal. apply find_app_fresh.
  - by apply no_match_iff.
  - rewrite addRegistrant_id. apply String.eqb_refl.
Qed.

Lemma create_then_getById_roundtrip_witness :
  ("uuid-4" ∉ ids (collection threeRegistrants)) /\
  getRegistrantById
    (id (fst (addRegistrant (sampleWorld "uuid-4" 1714557600003) aliceSmith
                            threeRegistrants)))
    (snd (addRegistrant (sampleWorld "uuid-4" 1714557600003) aliceSmith
                        threeRegistrants))
  = (Some (fst (addRegistrant (sampleWorld "uuid-4" 1714557600003) aliceSmith
                              threeRegistrants)),
     snd (addRegistrant (sampleWorld "uuid-4" 1714557600003) aliceSmith
                        threeRegistrants)).
Proof.
  assert ("uuid-4" ∉ ids (collection threeRegistrants)) as Hnot.
  { apply no_match_iff. intros x Hx. vm_compute in Hx.
    repeat (apply elem_of_cons in Hx as [->|Hx]; [reflexivity|]).
    inversion Hx. }
  split; [exact Hnot|].
  exact (proj1 (create_then_getById_roundtrip
                  (sampleWorld "uuid-4" 1714557600003) aliceSmith
                  threeRegistrants Hnot)).
Defined.

(** C5. The record [addRegistrant] returns, which is also the record it
    appends to the stored collection, carries the supplied [photoData] as it is.
    When no photo is supplied ([photoData] absent) its [photoPath] is the
    empty string and its [photoData] is absent; an empty-string photo is
    falsy as well and gives the empty [photoPath].  When a photo is
    supplied its [photoPath] is [photo_<Date.now()>.jpg], which is not
    empty. *)
Theorem create_photoPath_by_photo
  (w : World) (data : RegistrantFormData) (ls : LocalStorage) :
  collection (snd (addRegistrant w data ls))
    = collection ls ++ [fst (addRegistrant w data ls)] /\
  photoData (fst (addRegistrant w data ls)) = data_photoData data /\
  (data_photoData data = None ->
     photoPath (fst (addRegistrant w data ls)) = "" /\
     photoData (fst (addRegistrant w data ls)) = None) /\
  (truthy (data_photoData data) = false ->
     photoPath (fst (addRegistrant w data ls)) = "") /\
  (truthy (data_photoData data) = true ->
     photoPath (fst (addRegistrant w data ls))
       = ("photo_" ++ numberToString (Date_now w) ++ ".jpg")%string /\
     photoPath (fst (addRegistrant w data ls)) <> "").
Proof.
  split.
  { apply addRegistrant_collection. }
  unfold addRegistrant. rewrite getAllRegistrants_eq. simpl.
  split; [reflexivity|].
  split; [intros ->; split; reflexivity|].
  split; [intros ->; reflexivity|].
  intros ->. split; [reflexivity | apply photoLabel_nonempty].
Qed.

(** ** Shape of the collection after a mutation *)

Lemma deleteRegistrant_collection (i : string) (ls : LocalStorage) :
  collection (snd (deleteRegistrant i ls)) =
  List.filter (fun r => negb (String.eqb (id r) i)) (collection ls).
Proof.
  rewrite deleteRegistrant_eq. cbv zeta.
  destruct (Nat.eqb_spec
              (length (List.filter (fun r => negb (String.eqb (id r) i))
                                   (collection ls)))
              (length (collection ls))) as [Heq|Hne]; simpl; [|reflexivity].
  rewrite collection_initializeStorage. symmetry.
  apply filter_all. by apply filter_length_eq.
Qed.

Lemma updateRegistrant_collection (now : Z) (i : string)
  (data : RegistrantFormData) (ls : LocalStorage) :
  collection (snd (updateRegistrant now i data ls)) =
  match findIndex (fun r => String.eqb (id r) i) (collection ls) with
  | None => collection ls
  | Some index =>
      match collection ls !! index with
      | None => collection ls
      | Some old => <[index := updatedRegistrant now old data]> (collection ls)
      end
  end.
Proof.
  rewrite updateRegistrant_eq.
  destruct (findIndex _ (collection ls)) as [index|]; simpl.
  - destruct (collection ls !! index); simpl; [reflexivity|].
    apply collection_initializeStorage.
  - apply collection_initializeStorage.
Qed.

Lemma filter_sublist_of {A : Type} (p : A -> bool) (l : list A) :
  List.filter p l `sublist_of` l.
Proof.
  induction l as [|a l IH]; simpl; [constructor|].
  destruct (p a); by constructor.
Qed.

(** [filter] keeps every subsequence whose elements all pass the test. *)
Lemma filter_sublist_greatest {A : Type} (p : A -> bool) (k l : list A) :
  k `sublist_of` l -> (forall x, x ∈ k -> p x = true) ->
  k `sublist_of` List.filter p l.
Proof.
  induction 1 as [|x k l Hsub IH|x k l Hsub IH]; intros Hall; simpl.
  - constructor.
  - rewrite (Hall x (list_elem_of_here _ _)). constructor. apply IH.
    intros y Hy. apply Hall. by apply list_elem_of_further.
  - destruct (p x); [constructor|]; by apply IH.
Qed.

(** C10. [deleteRegistrant i] stores the longest subsequence of the old
    collection in which no record carries [i]: every record carrying [i]
    is gone, not only the first, and the others stay, in their order.
    [updateRegistrant] keeps the length of the collection and every
    position other than the one [findIndex] returned; that position holds
    the returned record. *)
Theorem delete_all_matches_update_one_position
  (now : Z) (i : string) (data : RegistrantFormData) (ls : LocalStorage) :
  (collection (snd (deleteRegistrant i ls)) `sublist_of` collection ls /\
   (i ∉ ids (collection (snd (deleteRegistrant i ls)))) /\
   (forall k : list Registrant,
      k `sublist_of` collection ls -> i ∉ ids k ->
      k `sublist_of` collection (snd (deleteRegistrant i ls)))) /\
  (length (collection (snd (updateRegistrant now i data ls)))
     = length (collection ls) /\
   (forall j : nat,
      findIndex (fun r => String.eqb (id r) i) (collection ls) <> Some j ->
      collection (snd (updateRegistrant now i data ls)) !! j
        = collection ls !! j) /\
   (forall index : nat,
      findIndex (fun r => String.eqb (id r) i) (collection ls) = Some index ->
      is_Some (fst (updateRegistrant now i data ls)) /\
      collection (snd (updateRegistrant now i data ls)) !! index
        = fst (updateRegistrant now i data ls))).
Proof.
  split.
  - rewrite deleteRegistrant_collection. split; [apply filter_sublist_of|].
    split.
    + intros Hi. apply list_elem_of_fmap in Hi as (x & -> & Hx).
      apply elem_of_kept in Hx as [_ Hx]. by destruct Hx.
    + intros k Hsub Hk. apply filter_sublist_greatest; [done|].
      by apply filter_keeps_iff.
  - rewrite updateRegistrant_collection.
    destruct (findIndex _ (collection ls)) as [index|] eqn:Hidx.
    + destruct (updateRegistrant_found now i data ls index Hidx)
        as (old & Hold & Hid & Hupd).
      rewrite Hupd, Hold. simpl. split; [apply length_insert|].
      split.
      * intros j Hj. apply list_lookup_insert_ne. congruence.
      * intros ? [= <-]. split; [by eexists|].
        apply list_lookup_insert_eq. by eapply lookup_lt_Some.
    + split; [reflexivity|]. split; [reflexivity|]. discriminate.
Qed.

(** ** Identifiers along a sequence of calls *)

Lemma ids_after_update (now : Z) (i : string) (data : RegistrantFormData)
  (ls : LocalStorage) :
  ids (collection (snd (updateRegistrant now i data ls))) = ids (collection ls).
Proof.
  rewrite updateRegistrant_collection.
  destruct (findIndex _ (collection ls)) as [index|]; [|reflexivity].
  destruct (collection ls !! index) as [old|] eqn:Hold; [|reflexivity].
  unfold ids. rewrite list_fmap_insert. apply list_insert_id.
  rewrite list_lookup_fmap, Hold. reflexivity.
Qed.

Lemma ids_after_delete (i : string) (ls : LocalStorage) :
  ids (collection (snd (deleteRegistrant i ls))) `sublist_of` ids (collection ls).
Proof.
  rewrite deleteRegistrant_collection. unfold ids.
  apply fmap_sublist, filter_sublist_of.
Qed.

Lemma ids_after_add (w : World) (data : RegistrantFormData) (ls : LocalStorage) :
  ids (collection (snd (addRegistrant w data ls)))
  = ids (collection ls) ++ [randomUUID w].
Proof.
  rewrite addRegistrant_collection. unfold ids.
  rewrite fmap_app, <- (addRegistrant_id w data ls). reflexivity.
Qed.

Lemma drawnUUIDs_cons (c : StoreCall) (cs : list StoreCall) :
  drawnUUIDs (c :: cs) = drawnUUIDs [c] ++ drawnUUIDs cs.
Proof. by destruct c. Qed.

Lemma drawnUUIDs_app (cs1 cs2 : list StoreCall) :
  drawnUUIDs (cs1 ++ cs2) = drawnUUIDs cs1 ++ drawnUUIDs cs2.
Proof.
  induction cs1 as [|c cs1 IH]; [reflexivity|].
  rewrite <- app_comm_cons, drawnUUIDs_cons, IH, (drawnUUIDs_cons c cs1).
  by rewrite app_assoc.
Qed.

Lemma step_add (w : World) (data : RegistrantFormData) (ls : LocalStorage) :
  step (CallAdd w data) ls
  = ([fst (addRegistrant w data ls)], snd (addRegistrant w data ls)).
Proof. simpl. by destruct (addRegistrant w data ls). Qed.

Lemma step_sublist_or_drawn (c : StoreCall) (ls : LocalStorage) :
  ids (collection (snd (step c ls)))
    `sublist_of` ids (collection ls) ++ drawnUUIDs [c].
Proof.
  destruct c as [w data|now i data|i|i|]; [rewrite step_add|..];
    cbn [step snd drawnUUIDs].
  - by rewrite ids_after_add.
  - rewrite ids_after_update, app_nil_r. done.
  - rewrite app_nil_r. apply ids_after_delete.
  - rewrite getRegistrantById_eq. cbn [snd].
    rewrite collection_initializeStorage, app_nil_r. done.
  - rewrite getAllRegistrants_eq. cbn [snd].
    rewrite collection_initializeStorage, app_nil_r. done.
Qed.

Lemma step_created (c : StoreCall) (ls : LocalStorage) :
  ids (fst (step c ls)) = drawnUUIDs [c].
Proof.
  destruct c as [w data|now i data|i|i|]; [rewrite step_add|..];
    reflexivity.
Qed.

Lemma run_cons (c : StoreCall) (cs : list StoreCall) (ls : LocalStorage) :
  run (c :: cs) ls =
  (fst (step c ls) ++ fst (run cs (snd (step c ls))),
   snd (run cs (snd (step c ls)))).
Proof.
  simpl. destruct (step c ls) as [created ls1]. simpl.
  by destruct (run cs ls1).
Qed.

(** The records [addRegistrant] returned carry the drawn identifiers. *)
Lemma run_created (cs : list StoreCall) (ls : LocalStorage) :
  ids (fst (run cs ls)) = drawnUUIDs cs.
Proof.
  revert ls; induction cs as [|c cs IH]; intros ls; [reflexivity|].
  rewrite run_cons, drawnUUIDs_cons. simpl. unfold ids in *.
  by rewrite fmap_app, IH, step_created.
Qed.

Lemma run_collection_NoDup (cs : list StoreCall) (ls : LocalStorage) :
  NoDup (ids (collection ls) ++ drawnUUIDs cs) ->
  NoDup (ids (collection (snd (run cs ls)))).
Proof.
  revert ls; induction cs as [|c cs IH]; intros ls Hnd.
  - simpl in *. by rewrite app_nil_r in Hnd.
  - rewrite run_cons. simpl. apply IH.
    rewrite drawnUUIDs_cons, app_assoc in Hnd.
    eapply sublist_NoDup; [exact Hnd|].
    apply sublist_app; [apply step_sublist_or_drawn | done].
Qed.

Lemma run_collection_sublist (cs : list StoreCall) (ls : LocalStorage) :
  ids (collection (snd (run cs ls)))
    `sublist_of` ids (collection ls) ++ drawnUUIDs cs.
Proof.
  revert ls; induction cs as [|c cs IH]; intros ls.
  - simpl. by rewrite app_nil_r.
  - rewrite run_cons, drawnUUIDs_cons, app_assoc. cbn [snd].
    etrans; [apply IH|].
    apply sublist_app; [apply step_sublist_or_drawn | done].
Qed.

(** C9, as the code has it.  The store gives each created record the
    identifier it draws from [crypto.randomUUID()] and never compares
    identifiers: the ids of the records [addRegistrant] returned are the
    drawn identifiers, in order, and after every call the ids of the
    stored collection form a subsequence of the ids stored at the start
    followed by the identifiers drawn so far.  So, provided the drawn
    identifiers differ from one another and from the ids stored at the
    start, which are distinct, the returned ids are pairwise distinct and
    the ids of the stored collection are distinct after every call. *)
Theorem ids_unique_while_draws_are_fresh (cs : list StoreCall) (ls : LocalStorage) :
  NoDup (ids (collection ls)) ->
  NoDup (drawnUUIDs cs) ->
  (forall u, u ∈ drawnUUIDs cs -> u ∉ ids (collection ls)) ->
  ids (fst (run cs ls)) = drawnUUIDs cs /\
  NoDup (ids (fst (run cs ls))) /\
  (forall cs1 cs2 : list StoreCall,
     cs = cs1 ++ cs2 ->
     ids (collection (snd (run cs1 ls)))
       `sublist_of` ids (collection ls) ++ drawnUUIDs cs1 /\
     NoDup (ids (collection (snd (run cs1 ls))))).
Proof.
  intros Hls Hdrawn Hfresh. split; [apply run_created|]. split.
  - by rewrite run_created.
  - intros cs1 cs2 ->. split; [apply run_collection_sublist|].
    eapply sublist_NoDup; [|apply run_collection_sublist].
    rewrite drawnUUIDs_app in Hdrawn, Hfresh.
    apply list.NoDup_app in Hdrawn as (Hd1 & _ & _).
    apply list.NoDup_app. split; [done|]. split; [|done].
    intros u Hu Hu1. apply (Hfresh u); [|done].
    apply elem_of_app. by left.
Qed.

Lemma ids_unique_while_draws_are_fresh_witness :
  NoDup (ids (collection emptyStorage)) /\
  NoDup (drawnUUIDs threeCalls) /\
  NoDup (ids (fst (run threeCalls emptyStorage))) /\
  NoDup (ids (collection (snd (run threeCalls emptyStorage)))).
Proof.
  assert (NoDup (ids (collection emptyStorage))) as Hls by constructor.
  assert (NoDup (drawnUUIDs threeCalls)) as Hd.
  { vm_compute.
    repeat (constructor;
            [rewrite ?elem_of_cons; intros H;
             repeat (destruct H as [H|H]; [discriminate H|]); inversion H|]).
    constructor. }
  assert (forall u, u ∈ drawnUUIDs threeCalls ->
                    u ∉ ids (collection emptyStorage)) as Hfresh.
  { intros u _ Hin. inversion Hin. }
  destruct (ids_unique_while_draws_are_fresh threeCalls emptyStorage
              Hls Hd Hfresh) as (_ & H1 & H2).
  split; [exact Hls|]. split; [exact Hd|]. split; [exact H1|].
  apply (H2 threeCalls []). by rewrite app_nil_r.
Defined.

(** Without that proviso the claim fails: when the generator returns the
    same value twice, two records are returned and stored under one id. *)
Lemma repeated_draw_breaks_uniqueness :
  ~ NoDup (ids (fst (run [ CallAdd (sampleWorld "uuid-1" 1) aliceSmith;
                            CallAdd (sampleWorld "uuid-1" 2) bobJones ]
                          emptyStorage))) /\
  ~ NoDup (ids (collection
                  (snd (run [ CallAdd (sampleWorld "uuid-1" 1) aliceSmith;
                              CallAdd (sampleWorld "uuid-1" 2) bobJones ]
                            emptyStorage)))).
Proof.
  split; intros Hnd; vm_compute in Hnd;
    apply list.NoDup_cons in Hnd as [Hnot _]; apply Hnot, list_elem_of_here.
Qed.

(** ** The dashboard: search *)

Lemma append_String (c : ascii) (s t : string) :
  (String c s ++ t)%string = String c (s ++ t)%string.
Proof. reflexivity. Qed.

Lemma append_empty (t : string) : (EmptyString ++ t)%string = t.
Proof. reflexivity. Qed.

Lemma prefix_true_iff (t s : string) :
  String.prefix t s = true <-> exists post : string, s = (t ++ post)%string.
Proof.
  revert s; induction t as [|c t IH]; intros s; simpl.
  - split; [intros _; by exists s | intros _; by destruct s].
  - destruct s as [|d s]; simpl.
    + split; [discriminate | intros [post [=]]].
    + destruct (Ascii.ascii_dec c d) as [->|Hne].
      * rewrite IH. split; intros [post Hpost]; exists post.
        -- by rewrite append_String, Hpost.
        -- rewrite append_String in Hpost. congruence.
      * split; [discriminate|]. intros [post Hpost].
        rewrite append_String in Hpost.
        injection Hpost as <- _. by destruct Hne.
Qed.

(** [includes] decides the substring relation of the specification. *)
Lemma includes_true_iff (s t : string) :
  includes s t = true <-> occursIn t s.
Proof.
  unfold occursIn. induction s as [|c s IH]; cbn [includes].
  - rewrite orb_false_r, prefix_true_iff. split.
    + intros [post Hpost]. by exists EmptyString, post.
    + intros ([|d pre] & post & Hs).
      * rewrite append_empty in Hs. by exists post.
      * rewrite append_String in Hs. discriminate.
  - rewrite orb_true_iff, prefix_true_iff, IH. split.
    + intros [[post Hpost] | (pre & post & Hs)].
      * by exists EmptyString, post.
      * exists (String c pre), post. by rewrite append_String, Hs.
    + intros ([|d pre] & post & Hs).
      * left. rewrite append_empty in Hs. by exists post.
      * right. rewrite append_String in Hs.
        injection Hs as <- Hs. by exists pre, post.
Qed.

Lemma whitespaceOnly_cons (c : ascii) (s : string) :
  whitespaceOnly (String c s) <-> isWhiteSpace c = true /\ whitespaceOnly s.
Proof.
  unfold whitespaceOnly. simpl. split.
  - inversion 1; subst; auto.
  - intros [Hc Hs]. by constructor.
Qed.

Lemma whitespaceOnly_empty : whitespaceOnly EmptyString.
Proof. constructor. Qed.

Lemma trimEnd_empty_iff (s : string) :
  trimEnd s = EmptyString <-> whitespaceOnly s.
Proof.
  induction s as [|c s IH]; simpl.
  - split; [intros _; apply whitespaceOnly_empty | reflexivity].
  - rewrite whitespaceOnly_cons, <- IH.
    destruct (trimEnd s) as [|d t]; destruct (isWhiteSpace c);
      split; try discriminate; try by intros []; auto.
Qed.

Lemma whitespaceOnly_trimStart (s : string) :
  whitespaceOnly (trimStart s) <-> whitespaceOnly s.
Proof.
  induction s as [|c s IH]; simpl; [reflexivity|].
  destruct (isWhiteSpace c) eqn:Hc; [|reflexivity].
  rewrite whitespaceOnly_cons, IH. tauto.
Qed.

(** [searchTerm.trim() === ''] holds exactly for the empty and the
    white-space-only terms. *)
Lemma trim_empty_iff (s : string) :
  String.eqb (trim s) "" = true <-> whitespaceOnly s.
Proof.
  rewrite String.eqb_eq. unfold trim.
  by rewrite trimEnd_empty_iff, whitespaceOnly_trimStart.
Qed.

Section Search.

Variable toLowerCase : string -> string.

Lemma matchesSearch_true_iff (searchTerm : string) (r : Registrant) :
  matchesSearch toLowerCase searchTerm r = true <->
  occursInIgnoringCase toLowerCase searchTerm (fullName r) \/
  occursInIgnoringCase toLowerCase searchTerm (email r) \/
  occursIn searchTerm (phone r).
Proof.
  unfold matchesSearch, occursInIgnoringCase.
  rewrite !orb_true_iff, !includes_true_iff. tauto.
Qed.

(** C6. A record is in the filtered view exactly when it is in the full
    listing and its name or its email contains the term, case ignored, or
    its phone contains the term as it is typed, or the term is empty or
    white space only.  For an empty or white-space-only term the filtered
    view is the full listing.  The filtered view keeps the order of the
    listing. *)
Theorem search_matches_name_email_phone
  (registrants : list Registrant) (searchTerm : string) :
  (forall r : Registrant,
     r ∈ filteredRegistrants toLowerCase registrants searchTerm <->
     r ∈ registrants /\
     (whitespaceOnly searchTerm \/
      occursInIgnoringCase toLowerCase searchTerm (fullName r) \/
      occursInIgnoringCase toLowerCase searchTerm (email r) \/
      occursIn searchTerm (phone r))) /\
  (whitespaceOnly searchTerm ->
     filteredRegistrants toLowerCase registrants searchTerm = registrants) /\
  filteredRegistrants toLowerCase registrants searchTerm
    `sublist_of` registrants.
Proof.
  unfold filteredRegistrants.
  destruct (String.eqb (trim searchTerm) "") eqn:Htrim.
  - apply trim_empty_iff in Htrim.
    split; [intros r; tauto|]. split; [reflexivity | done].
  - assert (~ whitespaceOnly searchTerm) as Hnw.
    { intros Hw. apply trim_empty_iff in Hw. congruence. }
    split; [|split; [tauto | apply filter_sublist_of]].
    intros r.
    rewrite !list_elem_of_In, List.filter_In, matchesSearch_true_iff.
    tauto.
Qed.

End Search.

(** The scenario of the specification: of "Alice Smith", "Bob Jones" and
    "Alice Brown", the search for "alice" shows the two Alices, on one
    page. *)
Example search_alice :
  map fullName
    (filteredRegistrants toLowerCase_latin1 (collection threeRegistrants) "alice")
    = ["Alice Smith"; "Alice Brown"] /\
  totalPages
    (filteredRegistrants toLowerCase_latin1 (collection threeRegistrants) "alice")
    itemsPerPage = 1%Z.
Proof. split; reflexivity. Qed.

Example search_phone_is_case_exact :
  map fullName
    (filteredRegistrants toLowerCase_latin1 (collection threeRegistrants) "0002")
    = ["Bob Jones"] /\
  filteredRegistrants toLowerCase_latin1 (collection threeRegistrants) "  "
    = collection threeRegistrants.
Proof. split; reflexivity. Qed.

(** ** The dashboard: pagination *)

(** The ceiling of the rational quotient, in integer arithmetic. *)
Lemma Math_ceil_div_Z (a b : Z) :
  (0 < b)%Z -> Math_ceil_div a b = (- ((- a) / b))%Z.
Proof.
  intros Hb. destruct b as [|p|p]; try lia.
  unfold Math_ceil_div, Qceiling, Qfloor, Qdiv, Qinv, Qmult, Qopp, inject_Z.
  simpl. by rewrite Z.mul_1_r.
Qed.

Lemma Math_ceil_div_isCeiling (n k : Z) :
  (0 < k)%Z -> isCeiling n k (Math_ceil_div n k).
Proof.
  intros Hk. rewrite Math_ceil_div_Z by done. unfold isCeiling.
  pose proof (Z.div_mod (- n) k ltac:(lia)) as Hdm.
  pose proof (Z.mod_pos_bound (- n) k Hk) as Hmod.
  nia.
Qed.

Lemma isCeiling_unique (n k t t' : Z) :
  (0 < k)%Z -> isCeiling n k t -> isCeiling n k t' -> t = t'.
Proof. unfold isCeiling. intros Hk H H'. nia. Qed.

Lemma length_slice {A : Type} (l : list A) (start end_ : Z) :
  (0 <= start <= end_)%Z -> (start <= Z.of_nat (length l))%Z ->
  Z.of_nat (length (slice l start end_))
  = (Z.min end_ (Z.of_nat (length l)) - start)%Z.
Proof.
  intros Hse Hsl. unfold slice, relativeIndex.
  destruct (Z.ltb_spec start 0); [lia|].
  destruct (Z.ltb_spec end_ 0); [lia|].
  rewrite length_take, length_drop. lia.
Qed.

(** C7. For a filtered listing of [N] records and a page size [K]:
    [totalPages] is the ceiling of [N / K]; each page before the last
    shows [K] records and the last page shows [N - K * (totalPages - 1)].
    A page is one of the indices [1 .. totalPages]. *)
Theorem pagination_total_and_page_sizes
  {A : Type} (filtered : list A) (perPage : Z) :
  (0 < perPage)%Z ->
  isCeiling (Z.of_nat (length filtered)) perPage (totalPages filtered perPage) /\
  (forall currentPage : Z,
     (1 <= currentPage <= totalPages filtered perPage)%Z ->
     Z.of_nat (length (currentItems filtered currentPage perPage))
     = if (currentPage =? totalPages filtered perPage)%Z
       then (Z.of_nat (length filtered)
             - perPage * (totalPages filtered perPage - 1))%Z
       else perPage).
Proof.
  intros Hk.
  pose proof (Math_ceil_div_isCeiling (Z.of_nat (length filtered)) perPage Hk)
    as Hceil.
  fold (totalPages filtered perPage) in Hceil.
  split; [exact Hceil|]. intros p Hp.
  unfold isCeiling in Hceil. unfold currentItems, indexOfFirstItem, indexOfLastItem.
  set (T := totalPages filtered perPage) in *.
  set (N := Z.of_nat (length filtered)) in *.
  rewrite length_slice; fold N; [|nia|nia].
  destruct (Z.eqb_spec p T) as [->|Hne]; nia.
Qed.

Lemma pagination_total_and_page_sizes_witness :
  (0 < itemsPerPage)%Z /\
  (1 <= 2 <= totalPages [1;2;3;4;5;6;7]%nat itemsPerPage)%Z /\
  isCeiling 7 itemsPerPage (totalPages [1;2;3;4;5;6;7]%nat itemsPerPage) /\
  Z.of_nat (length (currentItems [1;2;3;4;5;6;7]%nat 1 itemsPerPage)) = 5%Z /\
  Z.of_nat (length (currentItems [1;2;3;4;5;6;7]%nat 2 itemsPerPage)) = 2%Z.
Proof.
  assert (0 < itemsPerPage)%Z as Hk by reflexivity.
  assert (1 <= 1 <= totalPages [1;2;3;4;5;6;7]%nat itemsPerPage)%Z as H1
    by (split; discriminate).
  assert (1 <= 2 <= totalPages [1;2;3;4;5;6;7]%nat itemsPerPage)%Z as H2
    by (split; discriminate).
  destruct (pagination_total_and_page_sizes [1;2;3;4;5;6;7]%nat itemsPerPage Hk)
    as [Hceil Hpages].
  split; [exact Hk|]. split; [exact H2|]. split; [exact Hceil|].
  split; [exact (Hpages 1%Z H1) | exact (Hpages 2%Z H2)].
Defined.

Example pagination_seven_records :
  totalPages [1;2;3;4;5;6;7]%nat itemsPerPage = 2%Z /\
  currentItems [1;2;3;4;5;6;7]%nat 1 itemsPerPage = [1;2;3;4;5]%nat /\
  currentItems [1;2;3;4;5;6;7]%nat 2 itemsPerPage = [6;7]%nat.
Proof. repeat split; reflexivity. Qed.

(** An empty listing has no page; the page the dashboard starts on shows
    nothing. *)
Example pagination_empty_listing :
  totalPages (@nil nat) itemsPerPage = 0%Z /\
  currentItems (@nil nat) 1 itemsPerPage = [].
Proof. split; reflexivity. Qed.

(** ** The session guard *)

(** C8. [login] returns [true] exactly for the pair admin / admin123.  It
    then sets [isAuthenticated], and stores the session record, so that a
    restart over the surviving storage is authenticated again with the
    same record; the registrants are not touched.  For any other pair it
    returns [false] and leaves the state cells and the storage as they
    were. *)
Theorem login_only_with_valid_pair
  (username_ password : string) (st : AuthState) (ls : LocalStorage) :
  let '(ok, st', ls') := login username_ password st ls in
  (ok = true <-> username_ = "admin" /\ password = "admin123") /\
  (ok = true ->
     state_isAuthenticated st' = true /\
     state_admin st' = Some {| username := "admin"; isAuthenticated := true |} /\
     item_admin ls' = Some {| username := "admin"; isAuthenticated := true |} /\
     item_registrants ls' = item_registrants ls /\
     restart ls' = st') /\
  (ok = false -> st' = st /\ ls' = ls).
Proof.
  unfold login.
  destruct (String.eqb_spec username_ "admin") as [->|Hu]; simpl.
  - destruct (String.eqb_spec password "admin123") as [->|Hp]; simpl.
    + split; [tauto|]. split; [|discriminate]. intros _. repeat split.
    + split; [split; [discriminate | tauto]|].
      split; [discriminate | tauto].
  - split; [split; [discriminate | tauto]|].
    split; [discriminate | tauto].
Qed.

Example login_survives_restart :
  let '(ok, st', ls') := login "admin" "admin123" initialAuthState emptyStorage in
  ok = true /\ state_isAuthenticated st' = true /\
  state_isAuthenticated (restart ls') = true.
Proof. repeat split. Qed.

Example login_rejects_other_pairs :
  login "admin" "Admin123" initialAuthState emptyStorage
    = (false, initialAuthState, emptyStorage) /\
  login "Admin" "admin123" initialAuthState emptyStorage
    = (false, initialAuthState, emptyStorage) /\
  state_isAuthenticated (restart emptyStorage) = false.
Proof. repeat split. Qed.

Example logout_clears_session :
  let '(_, st1, ls1) := login "admin" "admin123" initialAuthState emptyStorage in
  logout st1 ls1 = (initialAuthState, emptyStorage).
Proof. reflexivity. Qed.

(** ** What the store does when the generator repeats itself

    The store never compares a drawn identifier with the stored ones: two
    draws of the same value leave two records under one [id], of which
    [getRegistrantById] reads the older and [deleteRegistrant] removes
    both.  Uniqueness of the ids rests on the generator alone. *)
Example repeated_draw_is_stored :
  let ls := snd (run [ CallAdd (sampleWorld "uuid-1" 1) aliceSmith;
                       CallAdd (sampleWorld "uuid-1" 2) bobJones ]
                     emptyStorage) in
  ids (collection ls) = ["uuid-1"; "uuid-1"] /\
  fullName <$> fst (getRegistrantById "uuid-1" ls) = Some "Alice Smith" /\
  collection (snd (deleteRegistrant "uuid-1" ls)) = [].
Proof. repeat split. Qed.

(** * Further properties of the registrant store *)

Lemma initializeStorage_is_Some (ls : LocalStorage) :
  is_Some (item_registrants (initializeStorage ls)).
Proof. destruct ls as [[l|] a]; by eexists. Qed.

Lemma initializeStorage_idempotent (ls : LocalStorage) :
  initializeStorage (initializeStorage ls) = initializeStorage ls.
Proof. apply initializeStorage_initialized, initializeStorage_is_Some. Qed.

Lemma deleteRegistrant_true_iff (i : string) (ls : LocalStorage) :
  fst (deleteRegistrant i ls) = true <-> i ∈ ids (collection ls).
Proof.
  rewrite deleteRegistrant_eq. cbv zeta.
  pose proof (filter_length_eq (fun x => negb (String.eqb (id x) i))
                (collection ls)) as Hlen.
  rewrite filter_keeps_iff in Hlen.
  destruct (Nat.eqb_spec
              (length (List.filter (fun x => negb (String.eqb (id x) i))
                                   (collection ls)))
              (length (collection ls))) as [Heq|Hne]; simpl.
  - split; [discriminate|]. intros Hin. by destruct (proj1 Hlen Heq).
  - split; [|reflexivity]. intros _.
    destruct (decide (i ∈ ids (collection ls))) as [|Hn]; [done|].
    destruct Hne. by apply Hlen.
Qed.

Lemma deleteRegistrant_is_Some (i : string) (ls : LocalStorage) :
  is_Some (item_registrants (snd (deleteRegistrant i ls))).
Proof.
  rewrite deleteRegistrant_eq. cbv zeta.
  destruct (_ =? _)%nat; simpl; [apply initializeStorage_is_Some | by eexists].
Qed.

Lemma updateRegistrant_is_Some (now : Z) (i : string)
  (data : RegistrantFormData) (ls : LocalStorage) :
  is_Some (item_registrants (snd (updateRegistrant now i data ls))).
Proof.
  rewrite updateRegistrant_eq.
  destruct (findIndex _ (collection ls)) as [index|]; simpl;
    [|apply initializeStorage_is_Some].
  destruct (collection ls !! index); simpl;
    [by eexists | apply initializeStorage_is_Some].
Qed.

Lemma addRegistrant_is_Some (w : World) (data : RegistrantFormData)
  (ls : LocalStorage) :
  is_Some (item_registrants (snd (addRegistrant w data ls))).
Proof. unfold addRegistrant. rewrite getAllRegistrants_eq. by eexists. Qed.

Lemma item_admin_setItem (v : list Registrant) (ls : LocalStorage) :
  item_admin (setItem_registrants v ls) = item_admin ls.
Proof. reflexivity. Qed.

Lemma item_admin_update (now : Z) (i : string) (data : RegistrantFormData)
  (ls : LocalStorage) :
  item_admin (snd (updateRegistrant now i data ls)) = item_admin ls.
Proof.
  rewrite updateRegistrant_eq.
  destruct (findIndex _ (collection ls)) as [index|]; simpl;
    [|apply item_admin_initializeStorage].
  destruct (collection ls !! index); simpl; apply item_admin_initializeStorage.
Qed.

Lemma item_admin_delete (i : string) (ls : LocalStorage) :
  item_admin (snd (deleteRegistrant i ls)) = item_admin ls.
Proof.
  rewrite deleteRegistrant_eq. cbv zeta.
  destruct (_ =? _)%nat; simpl; apply item_admin_initializeStorage.
Qed.

Lemma item_admin_add (w : World) (data : RegistrantFormData) (ls : LocalStorage) :
  item_admin (snd (addRegistrant w data ls)) = item_admin ls.
Proof.
  unfold addRegistrant. rewrite getAllRegistrants_eq. simpl.
  apply item_admin_initializeStorage.
Qed.

Lemma step_frame (c : StoreCall) (ls : LocalStorage) :
  item_admin (snd (step c ls)) = item_admin ls /\
  is_Some (item_registrants (snd (step c ls))).
Proof.
  destruct c as [w data|now i data|i|i|]; [rewrite step_add|..];
    cbn [step snd].
  - split; [apply item_admin_add | apply addRegistrant_is_Some].
  - split; [apply item_admin_update | apply updateRegistrant_is_Some].
  - split; [apply item_admin_delete | apply deleteRegistrant_is_Some].
  - rewrite getRegistrantById_eq. cbn [snd].
    split; [apply item_admin_initializeStorage | apply initializeStorage_is_Some].
  - rewrite getAllRegistrants_eq. cbn [snd].
    split; [apply item_admin_initializeStorage | apply initializeStorage_is_Some].
Qed.

(** X1. [getRegistrantById i] reads without changing the collection.  It
    returns [undefined] exactly when no record carries [i]; otherwise it
    returns the first record of the collection that carries [i]. *)
Theorem getRegistrantById_first_match (i : string) (ls : LocalStorage) :
  collection (snd (getRegistrantById i ls)) = collection ls /\
  (fst (getRegistrantById i ls) = None <-> i ∉ ids (collection ls)) /\
  (forall r : Registrant,
     fst (getRegistrantById i ls) = Some r ->
     id r = i /\
     exists k : nat,
       collection ls !! k = Some r /\
       forall (j : nat) (r' : Registrant),
         (j < k)%nat -> collection ls !! j = Some r' -> id r' <> i).
Proof.
  rewrite getRegistrantById_eq, find_findIndex. cbn [fst snd].
  split; [apply collection_initializeStorage|].
  destruct (findIndex _ (collection ls)) as [k|] eqn:Hk; simpl.
  - destruct (findIndex_Some _ _ _ Hk) as (x & Hx & Hpx & Hmin).
    rewrite Hx. split.
    + split; [discriminate|]. intros Hnot.
      pose proof (proj2 (findIndex_None _ _) (proj2 (no_match_iff i _) Hnot)).
      congruence.
    + intros r [= <-]. split; [by apply String.eqb_eq|].
      exists k. split; [done|]. intros j r' Hj Hr'.
      apply String.eqb_neq. by apply (Hmin j).
  - split; [|discriminate]. split; [|reflexivity]. intros _.
    apply no_match_iff. by apply findIndex_None.
Qed.

(** X2. No sequence of store calls touches the session item, and after
    the first call of any kind the ['registrants'] key exists. *)
Theorem store_calls_leave_session_alone (cs : list StoreCall) (ls : LocalStorage) :
  item_admin (snd (run cs ls)) = item_admin ls /\
  (cs <> [] -> is_Some (item_registrants (snd (run cs ls)))) /\
  (is_Some (item_registrants ls) ->
     is_Some (item_registrants (snd (run cs ls)))).
Proof.
  revert ls; induction cs as [|c cs IH]; intros ls.
  - split; [reflexivity|]. split; [done | auto].
  - rewrite run_cons. cbn [snd].
    destruct (step_frame c ls) as [Ha Hs].
    destruct (IH (snd (step c ls))) as (IHa & _ & IHs).
    split; [by rewrite IHa|]. split; intros _; by apply IHs.
Qed.

Lemma run_adds_collection (cs : list StoreCall) (ls : LocalStorage) :
  (forall c, c ∈ cs -> exists w data, c = CallAdd w data) ->
  collection (snd (run cs ls)) = collection ls ++ fst (run cs ls).
Proof.
  revert ls; induction cs as [|c cs IH]; intros ls Hadds.
  - simpl. by rewrite app_nil_r.
  - destruct (Hadds c (list_elem_of_here _ _)) as (w & data & ->).
    rewrite run_cons, step_add. cbn [fst snd].
    rewrite IH, addRegistrant_collection.
    + by rewrite <- app_assoc.
    + intros c Hc. apply Hadds. by apply list_elem_of_further.
Qed.

Lemma run_adds_length (cs : list StoreCall) (ls : LocalStorage) :
  (forall c, c ∈ cs -> exists w data, c = CallAdd w data) ->
  length (fst (run cs ls)) = length cs.
Proof.
  revert ls; induction cs as [|c cs IH]; intros ls Hadds; [reflexivity|].
  destruct (Hadds c (list_elem_of_here _ _)) as (w & data & ->).
  rewrite run_cons, step_add. cbn [fst]. rewrite length_app. simpl.
  f_equal. apply IH. intros c Hc. apply Hadds. by apply list_elem_of_further.
Qed.

(** X3. The listing is in insertion order: after a run of
    [addRegistrant] calls, [getAllRegistrants] returns the records that
    were there, followed by the created records in the order of their
    creation. *)
Theorem adds_are_listed_in_order (cs : list StoreCall) (ls : LocalStorage) :
  (forall c, c ∈ cs -> exists w data, c = CallAdd w data) ->
  fst (getAllRegistrants (snd (run cs ls))) = collection ls ++ fst (run cs ls) /\
  length (fst (getAllRegistrants (snd (run cs ls))))
    = (length (collection ls) + length cs)%nat.
Proof.
  intros Hadds. rewrite getAllRegistrants_eq. cbn [fst].
  rewrite run_adds_collection by done. split; [reflexivity|].
  rewrite length_app. f_equal. by apply run_adds_length.
Qed.

Lemma adds_are_listed_in_order_witness :
  (forall c, c ∈ threeCalls -> exists w data, c = CallAdd w data) /\
  fullName <$> fst (getAllRegistrants (snd (run threeCalls emptyStorage)))
    = ["Alice Smith"; "Bob Jones"; "Alice Brown"].
Proof.
  assert (forall c, c ∈ threeCalls -> exists w data, c = CallAdd w data) as H.
  { intros c Hc. unfold threeCalls in Hc.
    repeat (apply elem_of_cons in Hc as [->|Hc]; [by eexists _, _|]).
    inversion Hc. }
  split; [exact H|].
  rewrite (proj1 (adds_are_listed_in_order threeCalls emptyStorage H)).
  reflexivity.
Defined.

Lemma filter_idempotent {A : Type} (p : A -> bool) (l : list A) :
  List.filter p (List.filter p l) = List.filter p l.
Proof.
  apply filter_all. intros x Hx.
  apply list_elem_of_In, List.filter_In in Hx. tauto.
Qed.

(** X4. After [deleteRegistrant i] the id is gone: [getRegistrantById i]
    finds nothing, and a second [deleteRegistrant i] returns [false] and
    leaves the storage exactly as the first left it. *)
Theorem delete_is_idempotent (i : string) (ls : LocalStorage) :
  fst (getRegistrantById i (snd (deleteRegistrant i ls))) = None /\
  deleteRegistrant i (snd (deleteRegistrant i ls))
    = (false, snd (deleteRegistrant i ls)).
Proof.
  assert (i ∉ ids (collection (snd (deleteRegistrant i ls)))) as Hgone.
  { rewrite deleteRegistrant_collection. intros Hi.
    apply list_elem_of_fmap in Hi as (x & -> & Hx).
    apply elem_of_kept in Hx as [_ Hx]. by destruct Hx. }
  split.
  - rewrite getRegistrantById_eq, find_findIndex. cbn [fst].
    by rewrite (proj2 (findIndex_None _ _) (proj2 (no_match_iff i _) Hgone)).
  - rewrite (deleteRegistrant_eq i (snd (deleteRegistrant i ls))). cbv zeta.
    rewrite (proj2 (filter_length_eq _ _) (proj2 (filter_keeps_iff i _) Hgone)).
    rewrite Nat.eqb_refl.
    by rewrite (initializeStorage_initialized _ (deleteRegistrant_is_Some i ls)).
Qed.

Lemma find_insert_other {A : Type} (p : A -> bool) (l : list A) (k : nat)
  (old new : A) :
  l !! k = Some old -> p old = false -> p new = false ->
  List.find p (<[k := new]> l) = List.find p l.
Proof.
  revert k; induction l as [|a l IH]; intros k Hk Hold Hnew; [done|].
  destruct k as [|k]; simpl in *.
  - injection Hk as ->. by rewrite Hold, Hnew.
  - destruct (p a); [reflexivity|]. by apply IH.
Qed.

Lemma find_filter_other {A : Type} (p q : A -> bool) (l : list A) :
  (forall x, p x = true -> q x = true) ->
  List.find p (List.filter q l) = List.find p l.
Proof.
  intros Hpq. induction l as [|a l IH]; simpl; [reflexivity|].
  destruct (q a) eqn:Hq; simpl.
  - by rewrite IH.
  - destruct (p a) eqn:Hp; [|exact IH].
    rewrite (Hpq a Hp) in Hq. discriminate.
Qed.

Lemma find_snoc_other {A : Type} (p : A -> bool) (l : list A) (x : A) :
  p x = false -> List.find p (l ++ [x]) = List.find p l.
Proof.
  intros Hx. induction l as [|a l IH]; simpl; [by rewrite Hx|].
  by destruct (p a).
Qed.

(** X5. A call about one id does not change what [getRegistrantById]
    returns for another: neither an update nor a delete under [i], nor the
    creation of a record whose drawn id is not [j]. *)
Theorem other_ids_are_untouched
  (now : Z) (i j : string) (data : RegistrantFormData) (w : World)
  (ls : LocalStorage) :
  j <> i ->
  fst (getRegistrantById j (snd (updateRegistrant now i data ls)))
    = fst (getRegistrantById j ls) /\
  fst (getRegistrantById j (snd (deleteRegistrant i ls)))
    = fst (getRegistrantById j ls) /\
  (randomUUID w <> j ->
   fst (getRegistrantById j (snd (addRegistrant w data ls)))
     = fst (getRegistrantById j ls)).
Proof.
  intros Hji. rewrite !getRegistrantById_eq. cbn [fst].
  split; [|split].
  - rewrite updateRegistrant_collection.
    destruct (findIndex _ (collection ls)) as [k|] eqn:Hk; [|reflexivity].
    destruct (findIndex_Some _ _ _ Hk) as (old & Hold & Hid & _).
    rewrite Hold. apply String.eqb_eq in Hid.
    apply (find_insert_other _ _ _ old); [done|..]; apply String.eqb_neq;
      simpl; congruence.
  - rewrite deleteRegistrant_collection. apply find_filter_other.
    intros x Hx. apply String.eqb_eq in Hx. apply negb_true_iff.
    apply String.eqb_neq. congruence.
  - intros Hw. rewrite addRegistrant_collection. apply find_snoc_other.
    rewrite addRegistrant_id. by apply String.eqb_neq.
Qed.

Lemma other_ids_are_untouched_witness :
  "uuid-2" <> "uuid-1" /\
  fullName <$>
    fst (getRegistrantById "uuid-2"
           (snd (updateRegistrant 7 "uuid-1" aliceBrown threeRegistrants)))
    = Some "Bob Jones" /\
  fullName <$>
    fst (getRegistrantById "uuid-2"
           (snd (deleteRegistrant "uuid-1" threeRegistrants)))
    = Some "Bob Jones".
Proof.
  assert ("uuid-2" <> "uuid-1") as Hne by discriminate.
  destruct (other_ids_are_untouched 7 "uuid-1" "uuid-2" aliceBrown
              (sampleWorld "uuid-4" 8) threeRegistrants Hne) as (Hu & Hd & _).
  split; [exact Hne|]. rewrite Hu, Hd. split; reflexivity.
Defined.

Lemma updatedRegistrant_idempotent (now : Z) (old : Registrant)
  (data : RegistrantFormData) :
  updatedRegistrant now (updatedRegistrant now old data) data
  = updatedRegistrant now old data.
Proof.
  unfold updatedRegistrant, js_or. simpl.
  by destruct (truthy (data_photoData data)).
Qed.

(** X6. Saving the same update twice, at the same clock reading, is the
    same as saving it once: the second call returns the same result and
    leaves the storage as the first left it. *)
Theorem update_is_idempotent
  (now : Z) (i : string) (data : RegistrantFormData) (ls : LocalStorage) :
  updateRegistrant now i data (snd (updateRegistrant now i data ls))
  = updateRegistrant now i data ls.
Proof.
  destruct (findIndex (fun r => String.eqb (id r) i) (collection ls))
    as [k|] eqn:Hk.
  - destruct (updateRegistrant_found now i data ls k Hk)
      as (old & Hold & Hid & Hupd).
    rewrite Hupd. cbn [snd].
    set (new := updatedRegistrant now old data).
    assert (findIndex (fun r => String.eqb (id r) i)
              (collection (setItem_registrants (<[k := new]> (collection ls))
                             (initializeStorage ls))) = Some k) as Hk'.
    { rewrite collection_setItem. apply findIndex_insert; [done|].
      apply String.eqb_eq. exact Hid. }
    destruct (updateRegistrant_found now i data _ k Hk')
      as (old' & Hold' & _ & Hupd').
    rewrite Hupd'. rewrite collection_setItem in Hold' |- *.
    rewrite list_lookup_insert_eq in Hold' by (by eapply lookup_lt_Some).
    injection Hold' as <-. unfold new.
    rewrite updatedRegistrant_idempotent, list_insert_insert_eq.
    reflexivity.
  - rewrite (updateRegistrant_eq now i data ls), Hk. cbn [snd].
    rewrite updateRegistrant_eq, collection_initializeStorage, Hk.
    by rewrite initializeStorage_idempotent.
Qed.

(** X7. Creating a record under a fresh id and deleting it again restores
    the collection: the delete returns [true] and the records that were
    there before are there again, in their order. *)
Theorem add_then_delete_restores
  (w : World) (data : RegistrantFormData) (ls : LocalStorage) :
  randomUUID w ∉ ids (collection ls) ->
  fst (deleteRegistrant (id (fst (addRegistrant w data ls)))
                        (snd (addRegistrant w data ls))) = true /\
  collection (snd (deleteRegistrant (id (fst (addRegistrant w data ls)))
                                    (snd (addRegistrant w data ls))))
    = collection ls.
Proof.
  intros Hfresh. rewrite addRegistrant_id. split.
  - apply deleteRegistrant_true_iff. rewrite ids_after_add.
    apply elem_of_app. right. apply list_elem_of_here.
  - rewrite deleteRegistrant_collection, addRegistrant_collection.
    rewrite List.filter_app. cbn [List.filter].
    rewrite addRegistrant_id, String.eqb_refl. cbn [negb].
    rewrite app_nil_r. apply filter_all. by apply filter_keeps_iff.
Qed.

Lemma add_then_delete_restores_witness :
  ("uuid-4" ∉ ids (collection threeRegistrants)) /\
  collection
    (snd (deleteRegistrant
            (id (fst (addRegistrant (sampleWorld "uuid-4" 9) bobJones
                                    threeRegistrants)))
            (snd (addRegistrant (sampleWorld "uuid-4" 9) bobJones
                                threeRegistrants))))
    = collection threeRegistrants.
Proof.
  assert ("uuid-4" ∉ ids (collection threeRegistrants)) as Hnot.
  { apply no_match_iff. intros x Hx. vm_compute in Hx.
    repeat (apply elem_of_cons in Hx as [->|Hx]; [reflexivity|]).
    inversion Hx. }
  split; [exact Hnot|].
  exact (proj2 (add_then_delete_restores (sampleWorld "uuid-4" 9) bobJones
                  threeRegistrants Hnot)).
Defined.

Lemma identity_updatedRegistrant (now : Z) (old : Registrant)
  (data : RegistrantFormData) :
  identity (updatedRegistrant now old data) = identity old.
Proof. reflexivity. Qed.

Lemma step_identities (c : StoreCall) (ls : LocalStorage) :
  (identity <$> collection (snd (step c ls)))
    `sublist_of` (identity <$> collection ls) ++ (identity <$> fst (step c ls)).
Proof.
  destruct c as [w data|now i data|i|i|]; [rewrite step_add|..];
    cbn [step fst snd].
  - by rewrite addRegistrant_collection, fmap_app.
  - rewrite fmap_nil, app_nil_r, updateRegistrant_collection.
    destruct (findIndex _ (collection ls)) as [k|]; [|done].
    destruct (collection ls !! k) as [old|] eqn:Hold; [|done].
    rewrite list_fmap_insert, identity_updatedRegistrant.
    rewrite list_insert_id; [done|]. by rewrite list_lookup_fmap, Hold.
  - rewrite fmap_nil, app_nil_r, deleteRegistrant_collection.
    apply fmap_sublist, filter_sublist_of.
  - rewrite getRegistrantById_eq. cbn [snd].
    by rewrite collection_initializeStorage, fmap_nil, app_nil_r.
  - rewrite getAllRegistrants_eq. cbn [snd].
    by rewrite collection_initializeStorage, fmap_nil, app_nil_r.
Qed.

(** X8. A record keeps its [id] and [createdAt] for as long as it is
    stored: after any sequence of store calls, the (id, createdAt) pairs of
    the collection are, in order, among those that were stored at the
    start followed by those of the created records.  No call invents or
    alters such a pair. *)
Theorem id_and_createdAt_never_change (cs : list StoreCall) (ls : LocalStorage) :
  (identity <$> collection (snd (run cs ls)))
    `sublist_of` (identity <$> collection ls) ++ (identity <$> fst (run cs ls)).
Proof.
  revert ls; induction cs as [|c cs IH]; intros ls.
  - simpl. by rewrite app_nil_r.
  - rewrite run_cons. cbn [fst snd]. rewrite fmap_app, app_assoc.
    etrans; [apply IH|]. apply sublist_app; [apply step_identities | done].
Qed.

(** * Further properties of the dashboard *)

Lemma take_min_length {A : Type} (n : nat) (l : list A) :
  take (Nat.min n (length l)) l = take n l.
Proof.
  destruct (Nat.le_ge_cases n (length l)) as [H|H].
  - by rewrite Nat.min_l.
  - rewrite Nat.min_r by done. by rewrite !take_ge.
Qed.

(** The page with number [n + 1] is the [n]-th chunk of [perPage] records. *)
Lemma currentItems_chunk {A : Type} (filtered : list A) (perPage : Z) (n : nat) :
  (0 < perPage)%Z ->
  currentItems filtered (Z.of_nat n + 1) perPage
  = take (Z.to_nat perPage) (drop (n * Z.to_nat perPage) filtered).
Proof.
  intros Hk. unfold currentItems, indexOfFirstItem, indexOfLastItem, slice,
    relativeIndex.
  set (N := Z.of_nat (length filtered)).
  replace ((Z.of_nat n + 1) * perPage - perPage)%Z with (Z.of_nat n * perPage)%Z
    by lia.
  destruct (Z.ltb_spec (Z.of_nat n * perPage) 0); [nia|].
  destruct (Z.ltb_spec ((Z.of_nat n + 1) * perPage) 0); [nia|].
  destruct (Z.le_gt_cases N (Z.of_nat n * perPage)) as [Hout|Hin].
  - rewrite (Z.min_r (Z.of_nat n * perPage) N) by lia.
    rewrite !drop_ge; [by rewrite !take_nil | nia | lia].
  - rewrite (Z.min_l (Z.of_nat n * perPage) N) by lia.
    replace (Z.to_nat (Z.of_nat n * perPage)) with (n * Z.to_nat perPage)%nat
      by nia.
    rewrite <- (take_min_length (Z.to_nat perPage)). f_equal.
    rewrite length_drop. nia.
Qed.

Lemma chunks_concat {A : Type} (k n : nat) (l : list A) :
  (length l <= n * k)%nat ->
  concat (map (fun j => take k (drop (j * k) l)) (seq 0 n)) = l.
Proof.
  revert l; induction n as [|n IH]; intros l Hlen.
  - destruct l; [reflexivity | simpl in Hlen; lia].
  - rewrite <- cons_seq, <- seq_shift. cbn [map concat].
    rewrite map_map. cbn [Nat.mul drop].
    transitivity (take k l ++ drop k l); [|apply take_drop].
    f_equal.
    rewrite <- (IH (drop k l)) by (rewrite length_drop; simpl in Hlen; lia).
    f_equal. apply map_ext. intros j. by rewrite drop_drop.
Qed.

(** X9. The pages the pagination bar offers, shown one after the other,
    are the filtered listing: every record appears on exactly one page, in
    the order of the listing. *)
Theorem pages_partition_the_listing
  {A : Type} (filtered : list A) (perPage : Z) :
  (0 < perPage)%Z ->
  concat (map (fun pageNumber => currentItems filtered pageNumber perPage)
              (pageNumbers (totalPages filtered perPage)))
  = filtered.
Proof.
  intros Hk. unfold pageNumbers. rewrite map_map.
  rewrite (map_ext _ (fun j => take (Z.to_nat perPage)
                                 (drop (j * Z.to_nat perPage) filtered)))
    by (intros j; by apply currentItems_chunk).
  apply chunks_concat.
  pose proof (Math_ceil_div_isCeiling (Z.of_nat (length filtered)) perPage Hk)
    as Hceil.
  unfold isCeiling in Hceil. unfold totalPages. nia.
Qed.

Lemma pages_partition_the_listing_witness :
  (0 < itemsPerPage)%Z /\
  concat (map (fun pageNumber =>
                 currentItems [1;2;3;4;5;6;7;8;9;10;11]%nat pageNumber itemsPerPage)
              (pageNumbers (totalPages [1;2;3;4;5;6;7;8;9;10;11]%nat itemsPerPage)))
  = [1;2;3;4;5;6;7;8;9;10;11]%nat.
Proof.
  assert (0 < itemsPerPage)%Z as Hk by reflexivity.
  split; [exact Hk|].
  exact (pages_partition_the_listing [1;2;3;4;5;6;7;8;9;10;11]%nat itemsPerPage Hk).
Defined.

(** X10. On every page that exists, the line "Showing a to b of n
    results" agrees with the rows: [b - a + 1] rows are shown, and
    [1 <= a <= b <= n]. *)
Theorem showing_line_counts_the_rows (st : Dashboard) :
  (1 <= dash_currentPage st <= dash_totalPages st)%Z ->
  (showingTo st - showingFrom st + 1
     = Z.of_nat (length (dash_currentItems st)))%Z /\
  (1 <= showingFrom st <= showingTo st)%Z /\
  (showingTo st <= Z.of_nat (length (dash_filteredRegistrants st)))%Z.
Proof.
  unfold showingTo, showingFrom, dash_currentItems, dash_totalPages,
    currentItems, indexOfFirstItem, indexOfLastItem.
  set (l := dash_filteredRegistrants st). set (p := dash_currentPage st).
  intros Hp.
  assert (0 < itemsPerPage)%Z as Hk by reflexivity.
  pose proof (Math_ceil_div_isCeiling (Z.of_nat (length l)) itemsPerPage Hk)
    as Hceil.
  fold (totalPages l itemsPerPage) in Hceil. unfold isCeiling in Hceil.
  set (T := totalPages l itemsPerPage) in *.
  rewrite length_slice by nia. nia.
Qed.

Lemma showing_line_counts_the_rows_witness :
  (1 <= 1 <= dash_totalPages
              (fst (mountDashboard toLowerCase_latin1 threeRegistrants)))%Z /\
  showingFrom (fst (mountDashboard toLowerCase_latin1 threeRegistrants)) = 1%Z /\
  showingTo (fst (mountDashboard toLowerCase_latin1 threeRegistrants)) = 3%Z /\
  (3 - 1 + 1 = Z.of_nat (length (dash_currentItems
       (fst (mountDashboard toLowerCase_latin1 threeRegistrants)))))%Z.
Proof.
  assert (1 <= dash_currentPage
                 (fst (mountDashboard toLowerCase_latin1 threeRegistrants))
            <= dash_totalPages
                 (fst (mountDashboard toLowerCase_latin1 threeRegistrants)))%Z
    as Hp by (split; discriminate).
  split; [exact Hp|]. split; [reflexivity|]. split; [reflexivity|].
  exact (proj1 (showing_line_counts_the_rows _ Hp)).
Defined.

Lemma loadRegistrants_eq (st : Dashboard) (ls : LocalStorage) :
  loadRegistrants st ls =
  ({| dash_registrants := collection ls;
      dash_filteredRegistrants := collection ls;
      dash_isLoading := false;
      dash_searchTerm := dash_searchTerm st;
      dash_deleteConfirm := dash_deleteConfirm st;
      dash_currentPage := dash_currentPage st |}, initializeStorage ls).
Proof. unfold loadRegistrants. by rewrite getAllRegistrants_eq. Qed.

Lemma first_page_in_range (pages : Z) : (1 <= 1 <= Z.max 1 pages)%Z.
Proof. lia. Qed.

Lemma mountDashboard_consistent (toLowerCase : string -> string)
  (ls : LocalStorage) :
  dashboardConsistent toLowerCase (fst (mountDashboard toLowerCase ls))
                      (snd (mountDashboard toLowerCase ls)).
Proof.
  unfold mountDashboard. rewrite loadRegistrants_eq. cbn [fst snd].
  unfold dashboardConsistent, searchEffect, searchEffectOf. cbn.
  rewrite collection_initializeStorage.
  repeat split; try reflexivity; apply first_page_in_range.
Qed.

Lemma handleDelete_consistent (toLowerCase : string -> string) (i : string)
  (st : Dashboard) (ls : LocalStorage) :
  dashboardConsistent toLowerCase st ls ->
  dashboardConsistent toLowerCase (fst (handleDelete toLowerCase i st ls))
                      (snd (handleDelete toLowerCase i st ls)).
Proof.
  intros (Hreg & Hfil & Hload & Hpage). unfold handleDelete.
  destruct (isConfirming i st).
  - destruct (deleteRegistrant i ls) as [ok ls1].
    rewrite loadRegistrants_eq. cbn [fst snd].
    unfold dashboardConsistent, searchEffect, searchEffectOf. cbn.
    rewrite collection_initializeStorage.
    repeat split; try reflexivity; apply first_page_in_range.
  - cbn [fst snd]. unfold dashboardConsistent, dash_totalPages in *. cbn.
    repeat split; try done; lia.
Qed.

Lemma dashStep_consistent (toLowerCase : string -> string)
  (ev : DashboardEvent) (st : Dashboard) (ls : LocalStorage) :
  dashboardConsistent toLowerCase st ls ->
  dashboardConsistent toLowerCase (fst (dashStep toLowerCase ev st ls))
                      (snd (dashStep toLowerCase ev st ls)).
Proof.
  intros Hc. pose proof Hc as (Hreg & Hfil & Hload & Hpage).
  destruct ev as [v|i|i| | |index]; cbn [dashStep].
  - destruct (String.eqb v (dash_searchTerm st)); [exact Hc|].
    cbn [fst snd]. unfold dashboardConsistent, searchEffect, searchEffectOf.
    cbn. repeat split; try done; apply first_page_in_range.
  - destruct (rowShown i st); [|exact Hc]. by apply handleDelete_consistent.
  - destruct (rowShown i st && isConfirming i st); [|exact Hc].
    cbn [fst snd]. unfold dashboardConsistent, dash_totalPages in *. cbn.
    repeat split; try done; lia.
  - destruct (paginationShown st && negb (dash_currentPage st =? 1)%Z);
      [|exact Hc].
    cbn [fst snd]. unfold dashboardConsistent, dash_totalPages in *. cbn.
    repeat split; try done; lia.
  - destruct (paginationShown st) eqn:Hshown; [|exact Hc].
    destruct (negb (dash_currentPage st =? dash_totalPages st)%Z);
      [|exact Hc].
    cbn [andb fst snd]. unfold paginationShown in Hshown.
    apply andb_true_iff in Hshown as [_ Hmany]. apply Z.ltb_lt in Hmany.
    unfold dashboardConsistent, dash_totalPages in *. cbn.
    repeat split; try done; lia.
  - destruct (paginationShown st); [|exact Hc].
    destruct (Z.ltb_spec (Z.of_nat index) (dash_totalPages st)); [|exact Hc].
    cbn [andb fst snd]. unfold dashboardConsistent, dash_totalPages in *. cbn.
    repeat split; try done; lia.
Qed.

Lemma dashRun_consistent (toLowerCase : string -> string)
  (evs : list DashboardEvent) (st : Dashboard) (ls : LocalStorage) :
  dashboardConsistent toLowerCase st ls ->
  dashboardConsistent toLowerCase (fst (dashRun toLowerCase evs st ls))
                      (snd (dashRun toLowerCase evs st ls)).
Proof.
  revert st ls; induction evs as [|ev evs IH]; intros st ls Hc; [exact Hc|].
  cbn [dashRun].
  pose proof (dashStep_consistent toLowerCase ev st ls Hc) as Hstep.
  destruct (dashStep toLowerCase ev st ls) as [st1 ls1]. by apply IH.
Qed.

(** X11. Whatever the user does on the dashboard after it is mounted
    (typing in the search box, paging, arming, cancelling and confirming
    deletes), the dashboard shows what is stored: the listing is the
    stored collection, the filtered view is the search applied to it, and
    the page index stays within [1 .. max(1, totalPages)]. *)
Theorem dashboard_stays_consistent (toLowerCase : string -> string)
  (evs : list DashboardEvent) (ls0 : LocalStorage) :
  dashboardConsistent toLowerCase
    (fst (dashRun toLowerCase evs (fst (mountDashboard toLowerCase ls0))
                  (snd (mountDashboard toLowerCase ls0))))
    (snd (dashRun toLowerCase evs (fst (mountDashboard toLowerCase ls0))
                  (snd (mountDashboard toLowerCase ls0)))).
Proof. apply dashRun_consistent, mountDashboard_consistent. Qed.

Lemma filteredRegistrants_sublist (toLowerCase : string -> string)
  (registrants : list Registrant) (searchTerm : string) :
  filteredRegistrants toLowerCase registrants searchTerm `sublist_of` registrants.
Proof.
  unfold filteredRegistrants.
  destruct (String.eqb (trim searchTerm) ""); [done | apply filter_sublist_of].
Qed.

(** X12. A record is deleted by the second click only.  When the row of
    [i] is shown and no delete of [i] is armed, the first click on its
    delete button arms the confirmation and changes neither the storage
    nor what is shown; the second click removes every record that carries
    [i] from the storage and from both listings, disarms the confirmation
    and returns to page 1. *)
Theorem delete_takes_two_clicks (toLowerCase : string -> string) (i : string)
  (st : Dashboard) (ls : LocalStorage) :
  rowShown i st = true ->
  isConfirming i st = false ->
  let first := dashStep toLowerCase (ClickDelete i) st ls in
  let second := dashStep toLowerCase (ClickDelete i) (fst first) (snd first) in
  (snd first = ls /\
   fst first = setDeleteConfirm (Some i) st) /\
  ((forall r, r ∈ collection (snd second) <-> r ∈ collection ls /\ id r <> i) /\
   dash_registrants (fst second) = collection (snd second) /\
   (i ∉ ids (dash_registrants (fst second))) /\
   (i ∉ ids (dash_filteredRegistrants (fst second))) /\
   dash_deleteConfirm (fst second) = None /\
   dash_currentPage (fst second) = 1%Z).
Proof.
  intros Hrow Hconf. cbv zeta.
  assert (dashStep toLowerCase (ClickDelete i) st ls
          = (setDeleteConfirm (Some i) st, ls)) as ->.
  { cbn [dashStep]. rewrite Hrow. unfold handleDelete. by rewrite Hconf. }
  cbn [fst snd]. split; [split; reflexivity|].
  cbn [dashStep].
  assert (rowShown i (setDeleteConfirm (Some i) st) = true) as -> by exact Hrow.
  unfold handleDelete, isConfirming. cbn [dash_deleteConfirm setDeleteConfirm].
  rewrite String.eqb_refl.
  pose proof (deleteRegistrant_collection i ls) as Hcoll.
  destruct (deleteRegistrant i ls) as [ok ls1]. cbn [snd] in Hcoll.
  rewrite loadRegistrants_eq. cbn [fst snd].
  unfold searchEffect, searchEffectOf. cbn.
  rewrite collection_initializeStorage, Hcoll.
  assert (i ∉ ids (List.filter (fun r => negb (String.eqb (id r) i))
                               (collection ls))) as Hgone.
  { intros Hi. apply list_elem_of_fmap in Hi as (x & -> & Hx).
    apply elem_of_kept in Hx as [_ Hx]. by destruct Hx. }
  split; [intros r; apply elem_of_kept|].
  split; [reflexivity|]. split; [exact Hgone|]. split; [|by split].
  intros Hi. apply Hgone.
  eapply elem_of_sublist; [exact Hi|].
  apply fmap_sublist. apply filteredRegistrants_sublist.
Qed.

Lemma delete_takes_two_clicks_witness :
  rowShown "uuid-2" (fst (mountDashboard toLowerCase_latin1 threeRegistrants))
    = true /\
  isConfirming "uuid-2" (fst (mountDashboard toLowerCase_latin1 threeRegistrants))
    = false /\
  snd (dashStep toLowerCase_latin1 (ClickDelete "uuid-2")
         (fst (mountDashboard toLowerCase_latin1 threeRegistrants))
         (snd (mountDashboard toLowerCase_latin1 threeRegistrants)))
    = snd (mountDashboard toLowerCase_latin1 threeRegistrants).
Proof.
  split; [reflexivity|]. split; [reflexivity|].
  exact (proj1 (proj1 (delete_takes_two_clicks toLowerCase_latin1 "uuid-2"
                         (fst (mountDashboard toLowerCase_latin1 threeRegistrants))
                         (snd (mountDashboard toLowerCase_latin1 threeRegistrants))
                         eq_refl eq_refl))).
Defined.

Lemma toLowerCase_latin1_app (a b : string) :
  toLowerCase_latin1 (a ++ b) = (toLowerCase_latin1 a ++ toLowerCase_latin1 b)%string.
Proof.
  induction a as [|c a IH]; [reflexivity|].
  rewrite append_String. simpl. rewrite append_String. by rewrite IH.
Qed.

Lemma occursIn_lowered (toLowerCase : string -> string) (t s : string) :
  (forall a b : string,
     toLowerCase (a ++ b)%string = (toLowerCase a ++ toLowerCase b)%string) ->
  occursIn t s -> occursInIgnoringCase toLowerCase t s.
Proof.
  intros Happ (pre & post & ->). exists (toLowerCase pre), (toLowerCase post).
  by rewrite !Happ.
Qed.

(** X13. With a case mapping that works character by character, a term
    typed exactly as it occurs in a record's name, email or phone finds
    that record. *)
Theorem typed_substring_is_found (toLowerCase : string -> string)
  (registrants : list Registrant) (searchTerm : string) (r : Registrant) :
  (forall a b : string,
     toLowerCase (a ++ b)%string = (toLowerCase a ++ toLowerCase b)%string) ->
  r ∈ registrants ->
  occursIn searchTerm (fullName r) \/ occursIn searchTerm (email r)
    \/ occursIn searchTerm (phone r) ->
  r ∈ filteredRegistrants toLowerCase registrants searchTerm.
Proof.
  intros Happ Hr Hocc. unfold filteredRegistrants.
  destruct (String.eqb (trim searchTerm) ""); [exact Hr|].
  apply list_elem_of_In, List.filter_In. split; [by apply list_elem_of_In|].
  apply matchesSearch_true_iff.
  destruct Hocc as [H|[H|H]]; [left|right; left|right; right];
    try apply occursIn_lowered; done.
Qed.

Lemma typed_substring_is_found_witness :
  exists r : Registrant,
    r ∈ collection threeRegistrants /\ occursIn "Jon" (fullName r) /\
    r ∈ filteredRegistrants toLowerCase_latin1 (collection threeRegistrants) "Jon".
Proof.
  set (r := fst (addRegistrant (sampleWorld "uuid-2" 1714557600001) bobJones
                               emptyStorage)).
  assert (r ∈ collection threeRegistrants) as Hr.
  { vm_compute. apply list_elem_of_further, list_elem_of_here. }
  assert (occursIn "Jon" (fullName r)) as Hocc by (by exists "Bob ", "es").
  exists r. split; [exact Hr|]. split; [exact Hocc|].
  apply (typed_substring_is_found toLowerCase_latin1 _ "Jon" r
           toLowerCase_latin1_app Hr).
  by left.
Defined.

(** * Further properties of the session guard *)

Lemma authStep_invariant (ev : AuthEvent) (st : AuthState) (ls : LocalStorage) :
  state_admin st = item_admin ls ->
  state_isAuthenticated st = bool_decide (is_Some (item_admin ls)) ->
  (forall a, item_admin ls = Some a ->
             a = {| username := "admin"; isAuthenticated := true |}) ->
  state_admin (fst (authStep ev st ls)) = item_admin (snd (authStep ev st ls)) /\
  state_isAuthenticated (fst (authStep ev st ls))
    = bool_decide (is_Some (item_admin (snd (authStep ev st ls)))) /\
  (forall a, item_admin (snd (authStep ev st ls)) = Some a ->
             a = {| username := "admin"; isAuthenticated := true |}) /\
  item_registrants (snd (authStep ev st ls)) = item_registrants ls.
Proof.
  intros Hadm Hauth Hstored. destruct ev as [u p| |]; cbn [authStep].
  - unfold login.
    destruct (String.eqb_spec u "admin") as [->|Hu]; simpl; [|done].
    destruct (String.eqb_spec p "admin123") as [->|Hp]; simpl; [|done].
    repeat split. by intros a [= <-].
  - simpl. repeat split. discriminate.
  - unfold restart, mountEffect. cbn [fst snd].
    destruct (item_admin ls) as [a|] eqn:Ha; simpl.
    + rewrite (Hstored a eq_refl). repeat split. by intros ? [= <-].
    + repeat split. discriminate.
Qed.

(** X14. From storage without a session, whatever sequence of logins,
    logouts and restarts follows: the session in memory is the session in
    the storage, the user is authenticated exactly when a session is
    stored, a stored session is always that of [admin], and the
    registrants are never touched. *)
Theorem session_in_memory_matches_storage
  (evs : list AuthEvent) (ls0 : LocalStorage) :
  item_admin ls0 = None ->
  state_admin (fst (authRun evs (restart ls0) ls0))
    = item_admin (snd (authRun evs (restart ls0) ls0)) /\
  (state_isAuthenticated (fst (authRun evs (restart ls0) ls0)) = true
     <-> is_Some (item_admin (snd (authRun evs (restart ls0) ls0)))) /\
  (forall a, item_admin (snd (authRun evs (restart ls0) ls0)) = Some a ->
             a = {| username := "admin"; isAuthenticated := true |}) /\
  item_registrants (snd (authRun evs (restart ls0) ls0)) = item_registrants ls0.
Proof.
  intros Hnone.
  assert (forall evs st ls,
    state_admin st = item_admin ls ->
    state_isAuthenticated st = bool_decide (is_Some (item_admin ls)) ->
    (forall a, item_admin ls = Some a ->
               a = {| username := "admin"; isAuthenticated := true |}) ->
    state_admin (fst (authRun evs st ls)) = item_admin (snd (authRun evs st ls)) /\
    state_isAuthenticated (fst (authRun evs st ls))
      = bool_decide (is_Some (item_admin (snd (authRun evs st ls)))) /\
    (forall a, item_admin (snd (authRun evs st ls)) = Some a ->
               a = {| username := "admin"; isAuthenticated := true |}) /\
    item_registrants (snd (authRun evs st ls)) = item_registrants ls) as Hrun.
  { clear. induction evs as [|ev evs IH]; intros st ls Hadm Hauth Hstored.
    - by repeat split.
    - cbn [authRun].
      destruct (authStep_invariant ev st ls Hadm Hauth Hstored)
        as (H1 & H2 & H3 & H4).
      destruct (authStep ev st ls) as [st1 ls1]. cbn [fst snd] in *.
      rewrite <- H4. by apply IH. }
  destruct (Hrun evs (restart ls0) ls0) as (H1 & H2 & H3 & H4).
  - unfold restart, mountEffect. by rewrite Hnone.
  - unfold restart, mountEffect. by rewrite Hnone.
  - intros a Ha. congruence.
  - split; [exact H1|]. split; [|by split].
    rewrite H2. apply bool_decide_eq_true.
Qed.

Lemma session_in_memory_matches_storage_witness :
  item_admin threeRegistrants = None /\
  state_isAuthenticated
    (fst (authRun [EvLogin "admin" "admin123"; EvRestart; EvLogin "x" "y"]
                  (restart threeRegistrants) threeRegistrants)) = true /\
  state_isAuthenticated
    (fst (authRun [EvLogin "admin" "admin123"; EvLogout; EvRestart]
                  (restart threeRegistrants) threeRegistrants)) = false /\
  item_registrants
    (snd (authRun [EvLogin "admin" "admin123"; EvLogout; EvRestart]
                  (restart threeRegistrants) threeRegistrants))
    = item_registrants threeRegistrants.
Proof.
  split; [reflexivity|]. split; [reflexivity|]. split; [reflexivity|].
  exact (proj2 (proj2 (proj2 (session_in_memory_matches_storage
           [EvLogin "admin" "admin123"; EvLogout; EvRestart]
           threeRegistrants eq_refl)))).
Defined.

(** * The forms *)

Lemma truthy_Some_false (s : string) : truthy (Some s) = false <-> s = "".
Proof. destruct s; simpl; split; congruence. Qed.

Lemma attempt_completes {A : Type} (call : LocalStorage -> A * LocalStorage)
  (ls : LocalStorage) :
  attempt None call ls = (Some (fst (call ls)), snd (call ls)).
Proof. unfold attempt. by destruct (call ls). Qed.

Lemma collection_storageAfterFault (f : StoreFault) (ls : LocalStorage) :
  collection (storageAfterFault f ls) = collection ls.
Proof. destruct f; [reflexivity | apply collection_initializeStorage]. Qed.

Lemma item_admin_storageAfterFault (f : StoreFault) (ls : LocalStorage) :
  item_admin (storageAfterFault f ls) = item_admin ls.
Proof. destruct f; [reflexivity | apply item_admin_initializeStorage]. Qed.

(** X15. The registration form stores nothing without a photo: with an
    empty photo, [onSubmit] raises its alert and leaves form and storage as
    they are, whatever the store would do.  With a photo and a store call
    that completes, it appends one record that carries the submitted
    values, the photo and a non-empty [photoPath], and it clears the photo
    of the form, so that a submission repeated at once is refused and
    stores nothing more.  With a photo and a store call that throws, it
    raises the error alert, the collection and the session are as before,
    and the form keeps its photo for another attempt. *)
Theorem registration_needs_a_photo
  (w : World) (fault : option StoreFault) (data : FormValues)
  (st : RegistrationFormState) (ls : LocalStorage) :
  (reg_photoData st = "" ->
     registration_onSubmit w fault data st ls
       = (Some "Please capture or upload a photo", st, ls)) /\
  (reg_photoData st <> "" -> fault = None ->
     exists r : Registrant,
       fst (fst (registration_onSubmit w fault data st ls)) = None /\
       collection (snd (registration_onSubmit w fault data st ls))
         = collection ls ++ [r] /\
       valuesOf r = data /\
       photoData r = Some (reg_photoData st) /\
       photoPath r = photoLabel (Date_now w) /\ photoPath r <> "" /\
       id r = randomUUID w /\ createdAt r = Date_toISOString w /\
       forall (w' : World) (fault' : option StoreFault) (data' : FormValues),
         registration_onSubmit w' fault' data'
           (snd (fst (registration_onSubmit w fault data st ls)))
           (snd (registration_onSubmit w fault data st ls))
         = (Some "Please capture or upload a photo",
            snd (fst (registration_onSubmit w fault data st ls)),
            snd (registration_onSubmit w fault data st ls))) /\
  (reg_photoData st <> "" -> is_Some fault ->
     fst (fst (registration_onSubmit w fault data st ls))
       = Some "An error occurred while submitting the form. Please try again." /\
     collection (snd (registration_onSubmit w fault data st ls)) = collection ls /\
     item_admin (snd (registration_onSubmit w fault data st ls)) = item_admin ls /\
     reg_photoData (snd (fst (registration_onSubmit w fault data st ls)))
       = reg_photoData st /\
     reg_isSubmitting (snd (fst (registration_onSubmit w fault data st ls)))
       = false /\
     reg_submitSuccess (snd (fst (registration_onSubmit w fault data st ls)))
       = reg_submitSuccess st).
Proof.
  unfold registration_onSubmit. split; [|split].
  - intros ->. reflexivity.
  - intros Hphoto ->.
    assert (truthy (Some (reg_photoData st)) = true) as Ht.
    { destruct (truthy (Some (reg_photoData st))) eqn:E; [done|].
      by apply truthy_Some_false in E. }
    rewrite Ht, attempt_completes. cbn [negb fst snd].
    exists (fst (addRegistrant w (registrantData data (reg_photoData st)) ls)).
    split; [reflexivity|]. split; [apply addRegistrant_collection|].
    unfold addRegistrant. rewrite getAllRegistrants_eq.
    cbn [fst data_photoData registrantData]. rewrite Ht. cbn.
    split; [by destruct data|]. split; [reflexivity|].
    split; [reflexivity|]. split; [apply photoLabel_nonempty|].
    split; [reflexivity|]. split; reflexivity.
  - intros Hphoto [f ->].
    assert (truthy (Some (reg_photoData st)) = true) as Ht.
    { destruct (truthy (Some (reg_photoData st))) eqn:E; [done|].
      by apply truthy_Some_false in E. }
    rewrite Ht. cbn [negb attempt fst snd reg_photoData reg_isSubmitting
                     reg_submitSuccess].
    split; [reflexivity|].
    split; [apply collection_storageAfterFault|].
    split; [apply item_admin_storageAfterFault|]. by repeat split.
Qed.

Lemma getRegistrantById_after_update (now : Z) (i : string)
  (data : RegistrantFormData) (ls : LocalStorage) (r : Registrant) :
  fst (getRegistrantById i ls) = Some r ->
  updateRegistrant now i data ls
    = (Some (updatedRegistrant now r data),
       snd (updateRegistrant now i data ls)) /\
  fst (getRegistrantById i (snd (updateRegistrant now i data ls)))
    = Some (updatedRegistrant now r data).
Proof.
  intros Hr. rewrite getRegistrantById_eq, find_findIndex in Hr. simpl in Hr.
  destruct (findIndex _ (collection ls)) as [k|] eqn:Hk; [|discriminate].
  simpl in Hr.
  destruct (updateRegistrant_found now i data ls k Hk)
    as (old & Hold & Hid & Hupd).
  assert (old = r) as -> by congruence.
  rewrite Hupd. cbn [snd]. split; [reflexivity|].
  rewrite getRegistrantById_eq, collection_setItem, find_findIndex. cbn [fst].
  erewrite findIndex_insert; [| exact Hk | by apply String.eqb_eq].
  simpl. apply list_lookup_insert_eq. by eapply lookup_lt_Some.
Qed.

(** X16. Opening the edit form of an existing registrant and saving it
    without touching anything.  When the store call completes, the form
    navigates back to the dashboard and the record is as it was, except
    for its [photoPath]: the form submits the stored photo again, so a
    record that has a photo gets the new label [photo_<Date.now()>.jpg];
    a record without a photo keeps its path.  When the store call throws,
    the form shows its error, does not navigate, and the record is as it
    was. *)
Theorem edit_saved_untouched_relabels_photo
  (now : Z) (fault : option StoreFault) (i : string) (ls : LocalStorage)
  (r : Registrant) :
  i <> "" ->
  fst (getRegistrantById i ls) = Some r ->
  let loaded := edit_loadEffect (Some i) initialEditState ls in
  let saved :=
    edit_onSubmit now fault (Some i) (valuesOf r) (fst loaded) (snd loaded) in
  edit_values (fst loaded) = Some (valuesOf r) /\
  edit_error (fst loaded) = None /\
  (fault = None ->
     edit_navigated (fst saved) = Some "/admin/dashboard" /\
     edit_error (fst saved) = None /\
     fst (getRegistrantById i (snd saved))
       = Some {| id := id r; fullName := fullName r; email := email r;
                 phone := phone r; address := address r; gender := gender r;
                 dateOfBirth := dateOfBirth r;
                 photoPath := if truthy (photoData r)
                              then photoLabel now else photoPath r;
                 photoData := photoData r; createdAt := createdAt r |}) /\
  (is_Some fault ->
     edit_navigated (fst saved) = None /\
     edit_error (fst saved)
       = Some "An error occurred while updating the registrant" /\
     fst (getRegistrantById i (snd saved)) = Some r).
Proof.
  intros Hi Hr. cbv zeta.
  assert (truthy (Some i) = true) as Hti.
  { destruct i; [done | reflexivity]. }
  unfold edit_loadEffect. rewrite Hti. cbn [negb default].
  pose proof Hr as Hr'. rewrite getRegistrantById_eq in Hr'. cbn [fst] in Hr'.
  unfold Datatypes.id. rewrite getRegistrantById_eq, Hr'.
  cbn [fst snd edit_values edit_error initialEditState].
  split; [reflexivity|]. split; [reflexivity|].
  unfold edit_onSubmit. rewrite Hti. cbn [negb default edit_photoData].
  assert (fst (getRegistrantById i (initializeStorage ls)) = Some r) as Hr1.
  { by rewrite getRegistrantById_eq, collection_initializeStorage. }
  unfold Datatypes.id. split.
  - intros ->. rewrite attempt_completes.
    match goal with
    | |- context [updateRegistrant now i ?d (initializeStorage ls)] =>
        destruct (getRegistrantById_after_update now i d _ r Hr1) as [Hupd Hget];
        rewrite Hupd
    end.
    cbn [fst snd edit_navigated edit_error].
    split; [reflexivity|]. split; [reflexivity|].
    rewrite Hget. f_equal. unfold updatedRegistrant, js_or.
    destruct r as [? ? ? ? ? ? ? ? [[|c s]|] ?]; reflexivity.
  - intros [f ->]. cbn [attempt fst snd edit_navigated edit_error].
    split; [reflexivity|]. split; [reflexivity|].
    rewrite getRegistrantById_eq. cbn [fst].
    by rewrite collection_storageAfterFault, collection_initializeStorage.
Qed.

Lemma edit_saved_untouched_relabels_photo_witness :
  "uuid-1" <> "" /\
  photoPath <$> fst (getRegistrantById "uuid-1" threeRegistrants)
    = Some "photo_1714557600000.jpg" /\
  photoPath <$>
    fst (getRegistrantById "uuid-1"
      (snd (edit_onSubmit 1714557900000 None (Some "uuid-1")
              (valuesOf (fst (addRegistrant (sampleWorld "uuid-1" 1714557600000)
                                            aliceSmith emptyStorage)))
              (fst (edit_loadEffect (Some "uuid-1") initialEditState threeRegistrants))
              (snd (edit_loadEffect (Some "uuid-1") initialEditState threeRegistrants)))))
    = Some "photo_1714557900000.jpg".
Proof.
  assert ("uuid-1" <> "") as Hne by discriminate.
  split; [exact Hne|]. split; [reflexivity|].
  pose proof (edit_saved_untouched_relabels_photo 1714557900000 None "uuid-1"
                threeRegistrants
                (fst (addRegistrant (sampleWorld "uuid-1" 1714557600000)
                                    aliceSmith emptyStorage))
                Hne eq_refl) as H.
  cbv zeta in H. destruct H as (_ & _ & Hdone & _).
  destruct (Hdone eq_refl) as (_ & _ & Hget).
  exact (f_equal (fmap photoPath) Hget).
Defined.

(** X17. [handleFileChange] hands a file to [onFileSelect] exactly when
    its declared type contains [image] and its size is at most 5 MiB, and
    then clears the error.  A type without [image] gives the type error,
    also when the file is too large as well; a type with [image] and a
    larger size gives the size error.  No file at all changes nothing.
    The preview is never changed by this handler itself. *)
Theorem file_is_accepted_iff_image_within_limit
  (file : option File) (st : FileUploadState) :
  (forall f : File,
     snd (handleFileChange file st) = Some f <->
     file = Some f /\ occursIn "image" (file_type f)
       /\ (file_size f <= 5242880)%Z) /\
  upload_preview (fst (handleFileChange file st)) = upload_preview st /\
  (is_Some (snd (handleFileChange file st)) ->
     upload_error (fst (handleFileChange file st)) = None) /\
  (file = None -> fst (handleFileChange file st) = st) /\
  (forall f : File,
     file = Some f -> ~ occursIn "image" (file_type f) ->
     upload_error (fst (handleFileChange file st))
       = Some "Please select an image file (JPEG, PNG, etc.)") /\
  (forall f : File,
     file = Some f -> occursIn "image" (file_type f) ->
     (5242880 < file_size f)%Z ->
     upload_error (fst (handleFileChange file st))
       = Some "File is too large. Maximum size is 5MB.").
Proof.
  unfold handleFileChange, matchesImage, maxFileSize.
  destruct file as [f|]; cbn [fst snd].
  - destruct (includes (file_type f) "image") eqn:Himg; cbn [negb].
    + apply includes_true_iff in Himg.
      destruct (Z.ltb_spec (5 * 1024 * 1024) (file_size f)) as [Hbig|Hok];
        cbn [fst snd].
      * split; [intros g; split; [discriminate | intros ([= <-] & _ & H); lia]|].
        split; [reflexivity|]. split; [by intros [? [=]]|].
        split; [discriminate|]. split; [intros g [= <-] Hn; by destruct Hn|].
        reflexivity.
      * split; [intros g; split;
                 [intros [= <-]; repeat split; [done | lia]
                 | by intros ([= <-] & _ & _)]|].
        split; [reflexivity|]. split; [reflexivity|].
        split; [discriminate|]. split; [intros g [= <-] Hn; by destruct Hn|].
        intros g [= <-] _ Hbig. lia.
    + assert (~ occursIn "image" (file_type f)) as Hno.
      { intros H. apply includes_true_iff in H. congruence. }
      split; [intros g; split; [discriminate | intros ([= <-] & H & _); by destruct Hno]|].
      split; [reflexivity|]. split; [by intros [? [=]]|].
      split; [discriminate|]. split; [reflexivity|].
      intros g [= <-] H. by destruct Hno.
  - split; [intros g; split; [discriminate | by intros ([=] & _)]|].
    split; [reflexivity|]. split; [by intros [? [=]]|].
    split; [reflexivity|]. split; discriminate.
Qed.

Example upload_limit_is_inclusive :
  snd (handleFileChange (Some (mkFile "a.png" "image/png" 5242880))
                        (mkFileUploadState None None))
    = Some (mkFile "a.png" "image/png" 5242880) /\
  handleFileChange (Some (mkFile "a.png" "image/png" 5242881))
                   (mkFileUploadState None None)
    = (mkFileUploadState None (Some "File is too large. Maximum size is 5MB."),
       None) /\
  handleFileChange (Some (mkFile "a.pdf" "application/pdf" 9000000))
                   (mkFileUploadState None None)
    = (mkFileUploadState None
         (Some "Please select an image file (JPEG, PNG, etc.)"), None).
Proof. repeat split. Qed.

Example registration_submitted_twice :
  let st := mkRegistrationFormState "data:image/jpeg;base64,AAAA" false false in
  let data := valuesOf (fst (addRegistrant (sampleWorld "uuid-0" 0) bobJones
                                           emptyStorage)) in
  let '(alert0, st0, ls0) :=
    registration_onSubmit (sampleWorld "uuid-1" 1714557599999)
                          (Some ThrowsAfterInitialize) data st emptyStorage in
  let '(alert1, st1, ls1) :=
    registration_onSubmit (sampleWorld "uuid-1" 1714557600000) None data st0 ls0 in
  let '(alert2, st2, ls2) :=
    registration_onSubmit (sampleWorld "uuid-2" 1714557600001) None data st1 ls1 in
  alert0 = Some "An error occurred while submitting the form. Please try again."
  /\ collection ls0 = [] /\
  alert1 = None /\ alert2 = Some "Please capture or upload a photo" /\
  photoPath <$> collection ls2 = ["photo_1714557600000.jpg"].
Proof. repeat split. Qed.
